(** * Shallow embedding of the playwright-demo wrapper layer

  The development follows the Python sources:
  - [tests/api/clients/api_client.py]  (module [ApiClient])
  - [tests/ui/pages/base_page.py]      (module [BasePage])
  - [utils/helpers.py]                 (module [Helpers])
  - [utils/logger.py]                  (module [Logger])

  Python strings are [string]; dictionaries are [gmap]; the process-wide
  log is a list of records threaded through every operation that logs. *)

From Stdlib Require Import Ascii String List Arith Lia Bool.
From stdpp Require Import gmap strings list fin_maps pretty.

Local Open Scope list_scope.

(** ** Python [str] primitives used by the sources *)
Module PyStr.

(** [s.startswith(p)] *)
Fixpoint startswith (s p : string) {struct p} : bool :=
  match p with
  | EmptyString => true
  | String c p' =>
      match s with
      | EmptyString => false
      | String d s' => if Ascii.eqb d c then startswith s' p' else false
      end
  end.

(** [s.lstrip(chars)] with [chars] the single character [c] *)
Fixpoint lstrip (c : ascii) (s : string) : string :=
  match s with
  | EmptyString => EmptyString
  | String d s' => if Ascii.eqb d c then lstrip c s' else s
  end.

(** [s.endswith(c)] for one character *)
Fixpoint endswith_char (s : string) (c : ascii) : bool :=
  match s with
  | EmptyString => false
  | String d EmptyString => Ascii.eqb d c
  | String _ s' => endswith_char s' c
  end.

(** [s.rstrip(chars)] with [chars] the single character [c] *)
Fixpoint rstrip (c : ascii) (s : string) : string :=
  match s with
  | EmptyString => EmptyString
  | String d s' =>
      match rstrip c s' with
      | EmptyString => if Ascii.eqb d c then EmptyString else String d EmptyString
      | r => String d r
      end
  end.

(** Truthiness of a string: [bool(s)] *)
Definition truthy (s : string) : bool :=
  match s with EmptyString => false | _ => true end.

Definition slash : ascii := "/"%char.

End PyStr.

(** ** The process-wide log

  Every wrapper calls [logger.info/debug/warning/error]; the log is the
  sequence of records emitted so far, oldest first. *)
Module Logging.

Inductive Level := DEBUG | INFO | WARNING | ERROR | CRITICAL.

Record LogRecord := { level : Level; message : string }.

Definition emit (l : Level) (m : string) (log : list LogRecord) : list LogRecord :=
  log ++ [ {| level := l; message := m |} ].

End Logging.

(** ** The header set of the session

    The type of [session.headers] ([requests]' [CaseInsensitiveDict]) is
    not among the sources. *)
Module Headers.

(** Lower-casing of ASCII letters; on names written in ASCII this is what
    [str.lower()] gives.  Used for the worked examples only. *)
Definition lower_char (c : ascii) : ascii :=
  let n := nat_of_ascii c in
  if (65 <=? n)%nat && (n <=? 90)%nat then ascii_of_nat (n + 32) else c.

Fixpoint ascii_lower (s : string) : string :=
  match s with
  | EmptyString => EmptyString
  | String c s' => String (lower_char c) (ascii_lower s')
  end.

(** Modelled from the spec: the header set, missing from the sources with
    its type, is a "mapping(string -> string)" whose entries are set or
    overwritten by name.  An entry keeps the name as last written next to
    its value. *)
Abbreviation t := (gmap string (string * string)).

Section Store.

(** The normalisation a header name undergoes before it is used as the key
    of the store (Python's [str.lower()] for the real header set).  It is
    a parameter: nothing below depends on what it computes. *)
Variable lower : string -> string.

(** Modelled from the spec: [h[key] = value] on the missing header set,
    "sets/overwrites" the entry of that name. *)
Definition setitem (key value : string) (h : t) : t :=
  <[ lower key := (key, value) ]> h.

(** Modelled from the spec: [del h[key]] on the missing header set. *)
Definition delitem (key : string) (h : t) : t :=
  delete (lower key) h.

(** Modelled from the spec: [h.get(key)] on the missing header set. *)
Definition get (key : string) (h : t) : option string :=
  snd <$> h !! lower key.

(** Modelled from the spec: [h.update(d)] on the missing header set, for a
    dict [d] given as its items in insertion order; the spec's "merges
    supplied headers over" the ones present. *)
Definition update (d : list (string * string)) (h : t) : t :=
  fold_left (fun acc kv => setitem (fst kv) (snd kv) acc) d h.

End Store.

End Headers.

(** ** [tests/api/clients/api_client.py] *)
Module ApiClient.
Import Logging.

(** [config.settings] is not among the sources; the two settings the client
    reads are a parameter of the constructor. *)
Record Config := { API_BASE_URL : string; API_TIMEOUT : Z }.

(** [urllib3.util.retry.Retry], with the fields the constructor sets. *)
Record Retry := {
  total : nat;
  backoff_factor : nat;
  status_forcelist : list nat
}.

Record HTTPAdapter := { max_retries : Retry }.

(** Modelled from the spec: [requests.Session] is missing from the
    sources; the specification's data model has the client own "one HTTP
    session (connection pool + header set + retry policy)".  Here: the
    header set, the adapters (each with its retry policy) mounted by URL
    prefix, and the pool, as the URLs whose connections are held open. *)
Record Session := {
  headers : Headers.t;
  adapters : gmap string HTTPAdapter;
  pool : list string
}.

Record APIClient := {
  base_url : string;
  timeout : Z;
  session : Session
}.

Inductive Verb := GET | POST | PUT | PATCH | DELETE.

(** The keyword arguments ([**kwargs]) a caller may add to a request
    method, which forwards them to the session as they are: [headers=], a
    dict whose values are strings or [None], in insertion order; [auth=],
    given by the value of the [Authorization] header its credentials stand
    for; and any other keyword argument, by name and value. *)
Record Kwargs := {
  kw_headers : option (list (string * option string));
  kw_auth : option string;
  kw_other : list (string * string)
}.

(** A call without keyword arguments. *)
Definition no_kwargs : Kwargs :=
  {| kw_headers := None; kw_auth := None; kw_other := [] |}.

(** What the session hands to the transport. *)
Record Request := {
  verb : Verb;
  url : string;
  req_headers : Headers.t;
  req_timeout : Z;
  req_params : option string;
  req_data : option string;
  req_json : option string;
  req_options : list (string * string)
}.

Record Response := { status_code : nat; text : string }.

(** [requests.exceptions.RequestException] *)
Record RequestException := { exc_message : string }.

Inductive Result (A : Type) :=
| Return (a : A)
| Raise (e : RequestException).
Arguments Return {A} a.
Arguments Raise {A} e.

(** The state a method call can touch: the client object, the log, and the
    requests put on the wire so far. *)
Record State := {
  self : APIClient;
  log : list LogRecord;
  wire : list Request
}.

Definition M (A : Type) : Type := State -> Result A * State.

Definition ret {A} (a : A) : M A := fun st => (Return a, st).

Definition raise {A} (e : RequestException) : M A := fun st => (Raise e, st).

Definition bind {A B} (m : M A) (k : A -> M B) : M B :=
  fun st =>
    match m st with
    | (Return a, st') => k a st'
    | (Raise e, st') => (Raise e, st')
    end.

(** [try: m except RequestException as e: h e] *)
Definition try_except {A} (m : M A) (h : RequestException -> M A) : M A :=
  fun st =>
    match m st with
    | (Return a, st') => (Return a, st')
    | (Raise e, st') => h e st'
    end.

Notation "x <- m ;; k" := (bind m (fun x => k))
  (at level 100, m at next level, right associativity).
Notation "m ;;; k" := (bind m (fun _ => k))
  (at level 100, right associativity).

Definition logger (l : Level) (m : string) : M unit :=
  fun st =>
    (Return tt, {| self := self st; log := emit l m (log st); wire := wire st |}).

Definition get_self : M APIClient := fun st => (Return (self st), st).

Definition set_session (s : Session) : M unit :=
  fun st =>
    (Return tt,
     {| self := {| base_url := base_url (self st);
                   timeout := timeout (self st);
                   session := s |};
        log := log st; wire := wire st |}).

Section WithLower.

(** The key normalisation of the header set, see [Headers]. *)
Variable lower : string -> string.

(** [self.session.headers[key] = value] *)
Definition session_set_header (key value : string) : M unit :=
  c <- get_self ;;
  set_session {| headers := Headers.setitem lower key value (headers (session c));
                 adapters := adapters (session c);
                 pool := pool (session c) |}.

(** [self.session.mount(prefix, adapter)] *)
Definition mount (prefix : string) (a : HTTPAdapter) (s : Session) : Session :=
  {| headers := headers s;
     adapters := <[ prefix := a ]> (adapters s);
     pool := pool s |}.

(** Modelled from the spec: [requests.Session()], missing from the
    sources: a session with the library's default headers, a default
    adapter (no retries) on both prefixes, and an empty pool. *)
Definition Session_new (library_headers : list (string * string)) : Session :=
  let plain := {| max_retries :=
                    {| total := 0; backoff_factor := 0; status_forcelist := [] |} |} in
  {| headers := Headers.update lower library_headers ∅;
     adapters := <[ "http://" := plain ]> (<[ "https://" := plain ]> ∅);
     pool := [] |}.

(** Modelled from the spec: [requests.Session.close()], missing from
    the sources; the specification's "releases the underlying connection
    pool; idempotent".  Headers and adapters stay. *)
Definition Session_close (s : Session) : Session :=
  {| headers := headers s; adapters := adapters s; pool := [] |}.

(** The retry strategy written in [__init__]. *)
Definition retry_strategy : Retry :=
  {| total := 3;
     backoff_factor := 1;
     status_forcelist := [429; 500; 502; 503; 504]%nat |}.

Definition truthy_Z (z : Z) : bool := negb (z =? 0)%Z.

(** [APIClient.__init__(base_url=None, timeout=None, headers=None)] *)
Definition __init__ (config : Config) (library_headers : list (string * string))
    (base_url : option string) (timeout : option Z)
    (hdrs : option (list (string * string)))
    (log0 : list LogRecord) : APIClient * list LogRecord :=
  let b := match base_url with
           | Some b => if PyStr.truthy b then b else API_BASE_URL config
           | None => API_BASE_URL config
           end in
  let t := match timeout with
           | Some t => if truthy_Z t then t else API_TIMEOUT config
           | None => API_TIMEOUT config
           end in
  let s0 := Session_new library_headers in
  let h1 := Headers.update lower
              [("User-Agent", "Playwright-Demo/1.0"); ("Accept", "application/json")]
              (headers s0) in
  let h2 := match hdrs with
            | Some (kv :: d) => Headers.update lower (kv :: d) h1
            | _ => h1
            end in
  let adapter := {| max_retries := retry_strategy |} in
  let s1 := {| headers := h2; adapters := adapters s0; pool := pool s0 |} in
  let s2 := mount "https://" adapter (mount "http://" adapter s1) in
  ({| base_url := b; timeout := t; session := s2 |},
   emit INFO ("Initialized API client with base URL: " +:+ b) log0).

(** [APIClient._build_url] *)
Definition _build_url (c : APIClient) (endpoint : string) : string :=
  if PyStr.startswith endpoint "http" then endpoint
  else base_url c +:+ "/" +:+ PyStr.lstrip PyStr.slash endpoint.

Section Requests.

(** The network: given the requests already sent and the current one, a
    response or a transport failure. *)
Variable transport : list Request -> Request -> Response + RequestException.

(** Modelled from the spec: how the missing [Session.request] combines
    the headers of one call with the session's.  The session's headers are
    default headers (the specification's "sets/overwrites an arbitrary
    default header"): the headers a call names itself go over them, one
    given the value [None] is left out, and credentials given with
    [auth=] decide [Authorization]. *)
Definition merge_headers (kw : Kwargs) (h : Headers.t) : Headers.t :=
  let h1 := match kw_headers kw with
            | None => h
            | Some d =>
                fold_left
                  (fun acc kv =>
                     match snd kv with
                     | Some v => Headers.setitem lower (fst kv) v acc
                     | None => Headers.delitem lower (fst kv) acc
                     end)
                  d h
            end in
  match kw_auth kw with
  | None => h1
  | Some a => Headers.setitem lower "Authorization" a h1
  end.

(** Modelled from the spec: [self.session.request(verb, url, ...,
    timeout=..., **kwargs)], missing from the sources.  One request goes
    to the transport, with the merged headers and the arguments as given;
    after a response the connection stays in the pool; the session's own
    headers and adapters are not changed. *)
Definition Session_request (v : Verb) (u : string)
    (params data json : option string) (tmo : Z) (kw : Kwargs) : M Response :=
  fun st =>
    let c := self st in
    let req := {| verb := v; url := u;
                  req_headers := merge_headers kw (headers (session c));
                  req_timeout := tmo;
                  req_params := params; req_data := data; req_json := json;
                  req_options := kw_other kw |} in
    let sent := wire st ++ [req] in
    match transport (wire st) req with
    | inl r =>
        (Return r,
         {| self := {| base_url := base_url c; timeout := timeout c;
                       session := {| headers := headers (session c);
                                     adapters := adapters (session c);
                                     pool := u :: pool (session c) |} |};
            log := log st; wire := sent |})
    | inr e => (Raise e, {| self := c; log := log st; wire := sent |})
    end.

(** [APIClient.get(endpoint, params=None, **kwargs)] *)
Definition get (endpoint : string) (params : option string) (kwargs : Kwargs)
  : M Response :=
  c <- get_self ;;
  let url := _build_url c endpoint in
  logger INFO ("GET " +:+ url) ;;;
  try_except
    (response <- Session_request GET url params None None (timeout c) kwargs ;;
     logger DEBUG ("Response status: " +:+ pretty (status_code response)) ;;;
     ret response)
    (fun e => logger ERROR ("GET request failed: " +:+ exc_message e) ;;; raise e).

(** [APIClient.post(endpoint, data=None, json_data=None, **kwargs)] *)
Definition post (endpoint : string) (data json_data : option string)
    (kwargs : Kwargs) : M Response :=
  c <- get_self ;;
  let url := _build_url c endpoint in
  logger INFO ("POST " +:+ url) ;;;
  try_except
    (response <- Session_request POST url None data json_data (timeout c) kwargs ;;
     logger DEBUG ("Response status: " +:+ pretty (status_code response)) ;;;
     ret response)
    (fun e => logger ERROR ("POST request failed: " +:+ exc_message e) ;;; raise e).

(** [APIClient.put(endpoint, data=None, json_data=None, **kwargs)] *)
Definition put (endpoint : string) (data json_data : option string)
    (kwargs : Kwargs) : M Response :=
  c <- get_self ;;
  let url := _build_url c endpoint in
  logger INFO ("PUT " +:+ url) ;;;
  try_except
    (response <- Session_request PUT url None data json_data (timeout c) kwargs ;;
     logger DEBUG ("Response status: " +:+ pretty (status_code response)) ;;;
     ret response)
    (fun e => logger ERROR ("PUT request failed: " +:+ exc_message e) ;;; raise e).

(** [APIClient.patch(endpoint, data=None, json_data=None, **kwargs)] *)
Definition patch (endpoint : string) (data json_data : option string)
    (kwargs : Kwargs) : M Response :=
  c <- get_self ;;
  let url := _build_url c endpoint in
  logger INFO ("PATCH " +:+ url) ;;;
  try_except
    (response <- Session_request PATCH url None data json_data (timeout c) kwargs ;;
     logger DEBUG ("Response status: " +:+ pretty (status_code response)) ;;;
     ret response)
    (fun e => logger ERROR ("PATCH request failed: " +:+ exc_message e) ;;; raise e).

(** [APIClient.delete(endpoint, **kwargs)] *)
Definition delete (endpoint : string) (kwargs : Kwargs) : M Response :=
  c <- get_self ;;
  let url := _build_url c endpoint in
  logger INFO ("DELETE " +:+ url) ;;;
  try_except
    (response <- Session_request DELETE url None None None (timeout c) kwargs ;;
     logger DEBUG ("Response status: " +:+ pretty (status_code response)) ;;;
     ret response)
    (fun e => logger ERROR ("DELETE request failed: " +:+ exc_message e) ;;; raise e).

End Requests.

(** [APIClient.set_auth_header(token, header_type="Bearer")]; an omitted
    [header_type] is [None] here. *)
Definition set_auth_header (token : string) (header_type : option string) : M unit :=
  let header_type := default "Bearer" header_type in
  session_set_header "Authorization" (header_type +:+ " " +:+ token) ;;;
  logger DEBUG ("Authorization header set with type: " +:+ header_type).

(** [APIClient.set_header(key, value)] *)
Definition set_header (key value : string) : M unit :=
  session_set_header key value ;;;
  logger DEBUG ("Header set: " +:+ key +:+ " = " +:+ value).

(** [APIClient.close()] *)
Definition close : M unit :=
  logger INFO "Closing API client session" ;;;
  c <- get_self ;;
  set_session (Session_close (session c)).

(** [APIClient.__enter__()] *)
Definition __enter__ : M APIClient := get_self.

(** [APIClient.__exit__(exc_type, exc_val, exc_tb)]; the three arguments
    are the pending exception, if any.  The method returns [None]. *)
Definition __exit__ (exc : option RequestException) : M unit := close.

(** [with client: body].  [__exit__] returns [None], which is falsy, so an
    exception raised by the body is re-raised after [__exit__] has run. *)
Definition with_ {A} (body : APIClient -> M A) : M A :=
  fun st =>
    match __enter__ st with
    | (Return c, st0) =>
        match body c st0 with
        | (Return a, st1) =>
            match __exit__ None st1 with
            | (Return _, st2) => (Return a, st2)
            | (Raise e', st2) => (Raise e', st2)
            end
        | (Raise e, st1) =>
            match __exit__ (Some e) st1 with
            | (Return _, st2) => (Raise e, st2)
            | (Raise e', st2) => (Raise e', st2)
            end
        end
    | (Raise e, st0) => (Raise e, st0)
    end.

End WithLower.

End ApiClient.

(** ** [tests/ui/pages/base_page.py] *)
Module BasePage.
Import Logging.

(** Classes of Python exceptions an engine call can end with.  The first
    four derive from [Exception]; the last three derive from
    [BaseException] only. *)
Inductive ExcClass :=
| PlaywrightError
| PlaywrightTimeoutError
| TargetClosedError
| OtherException
| KeyboardInterrupt
| SystemExit
| GeneratorExit.

(** [isinstance(e, Exception)] *)
Definition isinstance_Exception (c : ExcClass) : bool :=
  match c with
  | KeyboardInterrupt | SystemExit | GeneratorExit => false
  | _ => true
  end.

(** An exception object: its class and [str(e)]. *)
Record PyException := { exc_class : ExcClass; exc_str : string }.

Inductive Outcome (A : Type) :=
| Returns (a : A)
| Raises (e : PyException).
Arguments Returns {A} a.
Arguments Raises {A} e.

Section Engine.

(** The Playwright page handle is an external collaborator: its state and
    the two queries the wrapper forwards to are parameters. *)
Variable Page : Type.
Variable page_is_visible : Page -> string -> Outcome bool.
Variable page_is_enabled : Page -> string -> Outcome bool.

Record BasePage := { page : Page; base_url : string }.

(** [BasePage.is_visible(selector)] *)
Definition is_visible (self : BasePage) (selector : string)
    (log : list LogRecord) : Outcome bool * list LogRecord :=
  match page_is_visible (page self) selector with
  | Returns b => (Returns b, log)
  | Raises e =>
      if isinstance_Exception (exc_class e) then
        (Returns false,
         emit WARNING
           ("Error checking visibility of " +:+ selector +:+ ": " +:+ exc_str e) log)
      else (Raises e, log)
  end.

(** [BasePage.is_enabled(selector)] *)
Definition is_enabled (self : BasePage) (selector : string)
    (log : list LogRecord) : Outcome bool * list LogRecord :=
  match page_is_enabled (page self) selector with
  | Returns b => (Returns b, log)
  | Raises e =>
      if isinstance_Exception (exc_class e) then
        (Returns false,
         emit WARNING
           ("Error checking if " +:+ selector +:+ " is enabled: " +:+ exc_str e) log)
      else (Raises e, log)
  end.

End Engine.

Arguments page {Page} _.
Arguments base_url {Page} _.
Arguments is_visible {Page} page_is_visible self selector log.
Arguments is_enabled {Page} page_is_enabled self selector log.

End BasePage.

(** ** [utils/helpers.py] *)
Module Helpers.

(** [datetime.datetime]: the value [datetime.now()] reads off the clock. *)
Record datetime := {
  year : N;
  month : N;
  day : N;
  hour : N;
  minute : N;
  second : N;
  microsecond : N
}.

(** The ranges [datetime] enforces on its fields. *)
Definition well_formed (d : datetime) : Prop :=
  (1 <= year d <= 9999 /\ 1 <= month d <= 12 /\ 1 <= day d <= 31 /\
   hour d < 24 /\ minute d < 60 /\ second d < 60 /\ microsecond d < 1000000)%N.

(** [s.zfill(width)] *)
Definition zfill (width : nat) (s : string) : string :=
  String.concat EmptyString (replicate (width - String.length s) "0") +:+ s.

(** One [strftime] directive. *)
Definition directive (d : datetime) (c : ascii) : string :=
  match c with
  | "Y"%char => zfill 4 (pretty (year d))
  | "m"%char => zfill 2 (pretty (month d))
  | "d"%char => zfill 2 (pretty (day d))
  | "H"%char => zfill 2 (pretty (hour d))
  | "M"%char => zfill 2 (pretty (minute d))
  | "S"%char => zfill 2 (pretty (second d))
  | "%"%char => "%"
  | _ => String "%" (String c EmptyString)
  end.

(** [d.strftime(fmt)] for the directives above; other characters are
    copied. *)
Fixpoint strftime (d : datetime) (fmt : string) : string :=
  match fmt with
  | EmptyString => EmptyString
  | String "%"%char (String c rest) => directive d c +:+ strftime d rest
  | String c rest => String c (strftime d rest)
  end.

(** [Helpers.get_timestamp()], with the clock reading as argument. *)
Definition get_timestamp (now : datetime) : string :=
  strftime now "%Y%m%d_%H%M%S".

(** [Helpers.generate_unique_filename(prefix, extension)]; both
    arguments default to the empty string. *)
Definition generate_unique_filename (now : datetime) (prefix extension : string) : string :=
  let timestamp := get_timestamp now in
  if PyStr.truthy prefix then prefix +:+ "_" +:+ timestamp +:+ extension
  else timestamp +:+ extension.

(** The shape [YYYYMMDD_HHMMSS]. *)
Definition is_digit (c : ascii) : bool :=
  let n := nat_of_ascii c in (48 <=? n)%nat && (n <=? 57)%nat.

Fixpoint all_digits (s : string) : bool :=
  match s with
  | EmptyString => true
  | String c s' => is_digit c && all_digits s'
  end.

Definition is_timestamp (s : string) : bool :=
  (String.length s =? 15)%nat
  && all_digits (substring 0 8 s)
  && String.eqb (substring 8 1 s) "_"
  && all_digits (substring 9 6 s).

(** [n], zero-filled to [w] characters, has exactly [w] characters, all
    of them digits. *)
Definition padded (w : nat) (n : N) : bool :=
  (String.length (zfill w (pretty n)) =? w)%nat && all_digits (zfill w (pretty n)).

(** Truncation of a clock reading to its second. *)
Definition same_second (a b : datetime) : Prop :=
  year a = year b /\ month a = month b /\ day a = day b /\
  hour a = hour b /\ minute a = minute b /\ second a = second b.

End Helpers.

(** ** [utils/logger.py] *)
Module Logger.
Import Logging.

(** [logging.StreamHandler] with its level and formatter; [handler_id] is
    the identity of the object. *)
Record Handler := {
  handler_id : nat;
  handler_level : Level;
  fmt : string;
  datefmt : string
}.

(** [logging.Logger] *)
Record PyLogger := {
  logger_level : option Level;
  handlers : list Handler
}.

(** The class attribute [Logger._logger] (a reference to a logger of the
    [logging] registry, which is keyed by name), the registry itself, and
    the identity the next created handler gets. *)
Record State := {
  _logger : option string;
  loggerDict : gmap string PyLogger;
  next_id : nat
}.

(** [logging.getLogger(name)]: the registered logger of that name, created
    (level unset, no handlers) on first use. *)
Definition getLogger (name : string) (reg : gmap string PyLogger) : PyLogger :=
  default {| logger_level := None; handlers := [] |} (reg !! name).

(** [Logger._setup_logger(name)] *)
Definition _setup_logger (name : string) (st : State) : State :=
  let lg := getLogger name (loggerDict st) in
  let lg1 := {| logger_level := Some DEBUG; handlers := handlers lg |} in
  let ch := {| handler_id := next_id st;
               handler_level := DEBUG;
               fmt := "%(asctime)s - %(name)s - %(levelname)s - %(message)s";
               datefmt := "%Y-%m-%d %H:%M:%S" |} in
  let lg2 := match handlers lg1 with
             | [] => {| logger_level := logger_level lg1; handlers := handlers lg1 ++ [ch] |}
             | _ :: _ => lg1
             end in
  {| _logger := Some name;
     loggerDict := <[ name := lg2 ]> (loggerDict st);
     next_id := S (next_id st) |}.

(** [Logger.get_logger(name=None)]; the result is the reference held in
    [Logger._logger]. *)
Definition get_logger (name : option string) (st : State) : option string * State :=
  match _logger st with
  | None =>
      let n := match name with
               | Some n => if PyStr.truthy n then n else "playwright-demo"
               | None => "playwright-demo"
               end in
      let st' := _setup_logger n st in
      (_logger st', st')
  | Some _ => (_logger st, st)
  end.

(** Successive calls, one per argument, collecting the results. *)
Fixpoint calls (names : list (option string)) (st : State)
  : list (option string) * State :=
  match names with
  | [] => ([], st)
  | n :: rest =>
      let '(r, st1) := get_logger n st in
      let '(rs, st2) := calls rest st1 in
      (r :: rs, st2)
  end.

(** Handlers of the logger a reference denotes. *)
Definition handlers_of (r : option string) (st : State) : list Handler :=
  match r with
  | Some n => handlers (getLogger n (loggerDict st))
  | None => []
  end.

End Logger.

(** ** The specification's reading of URL resolution

    These two definitions follow the words of the specification, not the
    code; the properties below compare [_build_url] with them. *)
Module UrlSpec.

Definition is_alpha (c : ascii) : bool :=
  let n := nat_of_ascii c in
  ((65 <=? n)%nat && (n <=? 90)%nat) || ((97 <=? n)%nat && (n <=? 122)%nat).

Definition is_scheme_char (c : ascii) : bool :=
  let n := nat_of_ascii c in
  is_alpha c || ((48 <=? n)%nat && (n <=? 57)%nat)
  || Ascii.eqb c "+" || Ascii.eqb c "-" || Ascii.eqb c ".".

Fixpoint scheme_tail (s : string) : bool :=
  match s with
  | EmptyString => false
  | String c s' =>
      if Ascii.eqb c ":" then true
      else if is_scheme_char c then scheme_tail s' else false
  end.

(** "Starts with a URL scheme": a letter, then letters, digits, [+], [-]
    or [.], then a colon (RFC 3986, section 3.1). *)
Definition starts_with_scheme (s : string) : bool :=
  match s with
  | EmptyString => false
  | String c s' => is_alpha c && scheme_tail s'
  end.

(** "base_url joined to endpoint with exactly one separating slash,
    regardless of a trailing slash on base_url or a leading slash on
    endpoint". *)
Definition join_one_slash (base endpoint : string) : string :=
  PyStr.rstrip PyStr.slash base +:+ "/" +:+ PyStr.lstrip PyStr.slash endpoint.

End UrlSpec.

(** ** The retry loop behind the session's adapter *)
Module RetryModel.
Import ApiClient.

(** Modelled from the spec: the loop that re-issues a request is
    [urllib3]'s and is missing from the sources, which only configure it
    ([Retry(total=3, backoff_factor=1, status_forcelist=[...])]).  The
    specification's RetryPolicy: a response whose status is in
    [retry_status_codes] is one to retry. *)
Definition retryable (p : Retry) (status : nat) : bool :=
  existsb (Nat.eqb status) (status_forcelist p).

(** Modelled from the spec: the wait before retry number [attempt]
    (counted from 0), missing from the sources with the loop:
    [backoff_factor * 2^attempt] seconds. *)
Definition backoff (p : Retry) (attempt : nat) : nat :=
  backoff_factor p * 2 ^ attempt.

(** Modelled from the spec: the retry loop itself, missing from the
    sources.  A retryable response is retried while attempts remain, after
    the wait above; then the last response is what the caller gets.
    [server k] is the response to the [k]-th attempt; the result is the
    waits, in order, and the response handed to the caller. *)
Fixpoint retry_from (p : Retry) (server : nat -> Response)
    (remaining attempt : nat) : list nat * Response :=
  let r := server attempt in
  if retryable p (status_code r) then
    match remaining with
    | O => ([], r)
    | S k =>
        let '(ds, r') := retry_from p server k (S attempt) in
        (backoff p attempt :: ds, r')
    end
  else ([], r).

(** Modelled from the spec: a GET through an adapter with policy [p]
    (the missing loop, started with [max_attempts] retries left). *)
Definition send_get (p : Retry) (server : nat -> Response) : list nat * Response :=
  retry_from p server (total p) 0.

End RetryModel.

(** ** Sequences of requests made by a caller *)
Module Caller.
Import ApiClient.

(** One call of a request method of the client, with its keyword
    arguments. *)
Inductive Call :=
| CallGet (endpoint : string) (params : option string) (kwargs : Kwargs)
| CallPost (endpoint : string) (data json_data : option string) (kwargs : Kwargs)
| CallPut (endpoint : string) (data json_data : option string) (kwargs : Kwargs)
| CallPatch (endpoint : string) (data json_data : option string) (kwargs : Kwargs)
| CallDelete (endpoint : string) (kwargs : Kwargs).

Section Run.

Variable lower : string -> string.
Variable transport : list Request -> Request -> Response + RequestException.

Definition perform (c : Call) : M Response :=
  match c with
  | CallGet e p kw => get lower transport e p kw
  | CallPost e d j kw => post lower transport e d j kw
  | CallPut e d j kw => put lower transport e d j kw
  | CallPatch e d j kw => patch lower transport e d j kw
  | CallDelete e kw => delete lower transport e kw
  end.

(** The calls one after the other; a caller that catches a failure goes on
    with the next call. *)
Fixpoint run (cs : list Call) (st : State) : State :=
  match cs with
  | [] => st
  | c :: cs' => run cs' (snd (perform c st))
  end.

End Run.

(** What a method leaves alone: the client but for its header store. *)
Definition same_settings (a b : APIClient) : Prop :=
  base_url a = base_url b /\ timeout a = timeout b /\
  adapters (session a) = adapters (session b) /\
  pool (session a) = pool (session b).

(** [close()] called [n] times in a row. *)
Fixpoint close_times (n : nat) (st : State) : State :=
  match n with
  | O => st
  | S k => close_times k (snd (close st))
  end.

End Caller.

(** ** Concrete inputs used in the examples *)
Module Examples.
Import ApiClient.

Definition config : Config :=
  {| API_BASE_URL := "https://api.example.test"; API_TIMEOUT := 30 |}.

Definition library_headers : list (string * string) :=
  [("User-Agent", "python-requests"); ("Accept-Encoding", "gzip, deflate");
   ("Accept", "*/*"); ("Connection", "keep-alive")].

Definition client_at (base : string) : APIClient :=
  fst (__init__ Headers.ascii_lower config library_headers (Some base) None None []).

Definition state_at (base : string) : State :=
  {| self := client_at base; log := []; wire := [] |}.

(** A server that answers every request with 200. *)
Definition ok_transport (_ : list Request) (_ : Request)
  : Response + RequestException :=
  inl {| status_code := 200; text := "{}" |}.

(** The keyword arguments of the repository's test of custom headers. *)
Definition custom_headers : Kwargs :=
  {| kw_headers := Some [("X-Custom-Header", Some "test-value")];
     kw_auth := None; kw_other := [] |}.

(** Keyword arguments that give the call an [Authorization] header of its
    own. *)
Definition own_authorization : Kwargs :=
  {| kw_headers := Some [("Authorization", Some "Basic dXNlcjpwdw==")];
     kw_auth := None; kw_other := [] |}.

(** A server that is unavailable on every attempt, and one that recovers
    after the first attempt. *)
Definition server_down (_ : nat) : Response :=
  {| status_code := 503; text := EmptyString |}.

Definition server_recovers (attempt : nat) : Response :=
  match attempt with
  | O => {| status_code := 503; text := EmptyString |}
  | S _ => {| status_code := 200; text := "{}" |}
  end.

End Examples.

(** ** Concrete pages and clock readings used in the examples *)
Module PageExamples.
Import BasePage Helpers.

(** A page handle is open or closed; a closed page fails every query, and
    a selector that does not parse fails on an open page. *)
Inductive DemoPage := OpenPage | ClosedPage.

Definition demo_query (p : DemoPage) (selector : string) : Outcome bool :=
  match p with
  | ClosedPage =>
      Raises {| exc_class := TargetClosedError;
                exc_str := "Target page, context or browser has been closed" |}
  | OpenPage =>
      if PyStr.startswith selector "<<" then
        Raises {| exc_class := PlaywrightError; exc_str := "Unexpected token" |}
      else Returns (String.eqb selector "h1")
  end.

Definition closed_page : BasePage DemoPage :=
  {| page := ClosedPage; base_url := "https://httpbin.org/html" |}.

Definition open_page : BasePage DemoPage :=
  {| page := OpenPage; base_url := "https://httpbin.org/html" |}.

Definition clock : datetime :=
  {| year := 2026; month := 11; day := 4;
     hour := 9; minute := 5; second := 0; microsecond := 12 |}.

(** The interpreter at start-up: [Logger._logger] is [None] and nothing
    is registered with [logging]. *)
Definition fresh_process : Logger.State :=
  {| Logger._logger := None; Logger.loggerDict := ∅; Logger.next_id := 0 |}.

Definition clock_later : datetime :=
  {| year := 2026; month := 11; day := 4;
     hour := 9; minute := 5; second := 0; microsecond := 999999 |}.

End PageExamples.

(** ** Vocabulary for stating what the client sends *)
Module Wire.
Import ApiClient Caller.



Definition kwargs_of (c : Call) : Kwargs :=
  match c with
  | CallGet _ _ kw | CallPost _ _ _ kw | CallPut _ _ _ kw | CallPatch _ _ _ kw
  | CallDelete _ kw => kw
  end.

(** The method name as the log lines spell it. *)
Definition verb_name (v : Verb) : string :=
  match v with
  | GET => "GET" | POST => "POST" | PUT => "PUT"
  | PATCH => "PATCH" | DELETE => "DELETE"
  end.

Section WithLower.

Variable lower : string -> string.


(** The value the last item of [d] named [k] (up to [lower]) carries. *)
Fixpoint last_value (k : string) (d : list (string * string)) : option string :=
  match d with
  | [] => None
  | (k', v) :: d' =>
      match last_value k d' with
      | Some w => Some w
      | None => if String.eqb (lower k') (lower k) then Some v else None
      end
  end.

(** The keyword arguments [kw] say nothing about the header [k]: no item
    of [headers=] is named [k] (up to [lower]) and, for [Authorization],
    no [auth=] is given. *)
Definition leaves_header (k : string) (kw : Kwargs) : Prop :=
  Forall (fun kv => lower (fst kv) <> lower k) (default [] (kw_headers kw))
  /\ (lower k = lower "Authorization" -> kw_auth kw = None).

End WithLower.

(** [n] slashes in front of [s]. *)
Fixpoint slashes (n : nat) (s : string) : string :=
  match n with
  | O => s
  | S k => String PyStr.slash (slashes k s)
  end.

End Wire.

(** ** The forwarding methods of [BasePage] and the page object
    [tests/ui/pages/html_page.py] *)
Module PageOps.
Import Logging BasePage.

(** The calls of the Playwright page the wrappers forward to.  Actions
    take the page to a new state; queries read it. *)
Record Engine (Page : Type) := {
  goto : Page -> string -> Outcome unit * Page;
  wait_for_load_state_ : Page -> string -> Outcome unit * Page;
  wait_for_selector_ : Page -> string -> Z -> Outcome unit * Page;
  click_ : Page -> string -> Outcome unit * Page;
  fill_ : Page -> string -> string -> Outcome unit * Page;
  type_ : Page -> string -> string -> Z -> Outcome unit * Page;
  select_option_ : Page -> string -> string -> Outcome unit * Page;
  screenshot : Page -> string -> Outcome string * Page;
  reload_ : Page -> Outcome unit * Page;
  go_back_ : Page -> Outcome unit * Page;
  go_forward_ : Page -> Outcome unit * Page;
  close_ : Page -> Outcome unit * Page;
  text_content : Page -> string -> Outcome (option string);
  get_attribute_ : Page -> string -> string -> Outcome (option string);
  url_ : Page -> string;
  title : Page -> Outcome string;
  locator_count : Page -> string -> Outcome nat;
  locator_nth_get_attribute : Page -> string -> nat -> string -> Outcome (option string)
}.

Arguments goto {Page} _ _ _.
Arguments wait_for_load_state_ {Page} _ _ _.
Arguments wait_for_selector_ {Page} _ _ _ _.
Arguments click_ {Page} _ _ _.
Arguments fill_ {Page} _ _ _ _.
Arguments type_ {Page} _ _ _ _ _.
Arguments select_option_ {Page} _ _ _ _.
Arguments screenshot {Page} _ _ _.
Arguments reload_ {Page} _ _.
Arguments go_back_ {Page} _ _.
Arguments go_forward_ {Page} _ _.
Arguments close_ {Page} _ _.
Arguments text_content {Page} _ _ _.
Arguments get_attribute_ {Page} _ _ _ _.
Arguments url_ {Page} _ _.
Arguments title {Page} _ _.
Arguments locator_count {Page} _ _ _.
Arguments locator_nth_get_attribute {Page} _ _ _ _ _.

Section Methods.

Context {Page : Type}.
Variable engine : Engine Page.

(** The outcome of a method, the page object after it, and the log. *)
Definition Step (A : Type) : Type := Outcome A * BasePage Page * list LogRecord.

(** An action of the engine on [self.page], after the log line [log]. *)
Definition act {A} (self : BasePage Page) (call : Page -> Outcome A * Page)
    (log : list LogRecord) : Step A :=
  let '(out, p) := call (page self) in
  (out, {| page := p; base_url := base_url self |}, log).

(** A query of the engine on [self.page]. *)
Definition ask {A} (self : BasePage Page) (call : Page -> Outcome A)
    (log : list LogRecord) : Step A :=
  (call (page self), self, log).

(** [BasePage.navigate(path)]; [path] defaults to the empty string. *)
Definition navigate (self : BasePage Page) (path : string) (log : list LogRecord)
  : Step unit :=
  let url := base_url self +:+ path in
  act self (fun p => goto engine p url) (emit INFO ("Navigating to: " +:+ url) log).

(** [BasePage.wait_for_load_state(state)]; [state] defaults to
    [networkidle]. *)
Definition wait_for_load_state (self : BasePage Page) (state : option string)
    (log : list LogRecord) : Step unit :=
  let state := default "networkidle" state in
  act self (fun p => wait_for_load_state_ engine p state)
    (emit DEBUG ("Waiting for page to reach '" +:+ state +:+ "' state") log).

(** [BasePage.wait_for_selector(selector, timeout)]; [timeout] defaults
    to 30000. *)
Definition wait_for_selector (self : BasePage Page) (selector : string)
    (timeout : option Z) (log : list LogRecord) : Step unit :=
  act self (fun p => wait_for_selector_ engine p selector (default 30000%Z timeout))
    (emit DEBUG ("Waiting for selector: " +:+ selector) log).

(** [BasePage.click(selector)] *)
Definition click (self : BasePage Page) (selector : string) (log : list LogRecord)
  : Step unit :=
  act self (fun p => click_ engine p selector)
    (emit DEBUG ("Clicking element: " +:+ selector) log).

(** [BasePage.fill(selector, text)] *)
Definition fill (self : BasePage Page) (selector text : string)
    (log : list LogRecord) : Step unit :=
  act self (fun p => fill_ engine p selector text)
    (emit DEBUG ("Filling '" +:+ selector +:+ "' with text: " +:+ text) log).

(** [BasePage.type_text(selector, text, delay)]; [delay] defaults to 0. *)
Definition type_text (self : BasePage Page) (selector text : string)
    (delay : option Z) (log : list LogRecord) : Step unit :=
  act self (fun p => type_ engine p selector text (default 0%Z delay))
    (emit DEBUG ("Typing text in '" +:+ selector +:+ "'") log).

(** [BasePage.get_text(selector)] *)
Definition get_text (self : BasePage Page) (selector : string)
    (log : list LogRecord) : Step (option string) :=
  ask self (fun p => text_content engine p selector)
    (emit DEBUG ("Getting text from: " +:+ selector) log).

(** [BasePage.get_attribute(selector, attribute)] *)
Definition get_attribute (self : BasePage Page) (selector attribute : string)
    (log : list LogRecord) : Step (option string) :=
  ask self (fun p => get_attribute_ engine p selector attribute)
    (emit DEBUG ("Getting attribute '" +:+ attribute +:+ "' from: " +:+ selector) log).

(** [BasePage.select_option(selector, value)] *)
Definition select_option (self : BasePage Page) (selector value : string)
    (log : list LogRecord) : Step unit :=
  act self (fun p => select_option_ engine p selector value)
    (emit DEBUG ("Selecting '" +:+ value +:+ "' from dropdown: " +:+ selector) log).

(** [BasePage.take_screenshot(filename)]: the result is what
    [page.screenshot(path=filename)] returns. *)
Definition take_screenshot (self : BasePage Page) (filename : string)
    (log : list LogRecord) : Step string :=
  act self (fun p => screenshot engine p filename)
    (emit INFO ("Taking screenshot: " +:+ filename) log).

(** [BasePage.get_url()] *)
Definition get_url (self : BasePage Page) (log : list LogRecord) : Step string :=
  ask self (fun p => Returns (url_ engine p)) log.

(** [BasePage.get_title()] *)
Definition get_title (self : BasePage Page) (log : list LogRecord) : Step string :=
  ask self (fun p => title engine p) log.

(** [BasePage.reload()] *)
Definition reload (self : BasePage Page) (log : list LogRecord) : Step unit :=
  act self (fun p => reload_ engine p) (emit INFO "Reloading page" log).

(** [BasePage.go_back()] *)
Definition go_back (self : BasePage Page) (log : list LogRecord) : Step unit :=
  act self (fun p => go_back_ engine p) (emit INFO "Going back" log).

(** [BasePage.go_forward()] *)
Definition go_forward (self : BasePage Page) (log : list LogRecord) : Step unit :=
  act self (fun p => go_forward_ engine p) (emit INFO "Going forward" log).

(** [BasePage.close()] *)
Definition close (self : BasePage Page) (log : list LogRecord) : Step unit :=
  act self (fun p => close_ engine p) (emit INFO "Closing page" log).

(** The locators of [HtmlPage]. *)
Definition HEADING : string := "h1".
Definition PARAGRAPH : string := "p".
Definition LINK : string := "a".

(** [HtmlPage.__init__(page, base_url)]; [base_url] defaults to the
    httpbin page. *)
Definition HtmlPage (p : Page) (base : option string) : BasePage Page :=
  {| page := p; base_url := default "https://httpbin.org/html" base |}.

(** [HtmlPage.get_heading_text()] *)
Definition get_heading_text (self : BasePage Page) (log : list LogRecord)
  : Step (option string) :=
  ask self (fun p => text_content engine p HEADING) (emit DEBUG "Getting heading text" log).

(** [HtmlPage.get_paragraph_text()] *)
Definition get_paragraph_text (self : BasePage Page) (log : list LogRecord)
  : Step (option string) :=
  ask self (fun p => text_content engine p PARAGRAPH)
    (emit DEBUG "Getting paragraph text" log).

(** The list comprehension of [get_all_links]: the attribute of the
    elements at the indices [idxs], in that order; the first failure ends
    it. *)
Fixpoint comprehension (p : Page) (idxs : list nat)
  : Outcome (list (option string)) :=
  match idxs with
  | [] => Returns []
  | i :: rest =>
      match locator_nth_get_attribute engine p LINK i "href" with
      | Raises e => Raises e
      | Returns v =>
          match comprehension p rest with
          | Raises e => Raises e
          | Returns vs => Returns (v :: vs)
          end
      end
  end.

(** [HtmlPage.get_all_links()] *)
Definition get_all_links (self : BasePage Page) (log : list LogRecord)
  : Step (list (option string)) :=
  ask self
    (fun p =>
       match locator_count engine p LINK with
       | Raises e => Raises e
       | Returns n => comprehension p (seq 0 n)
       end)
    (emit DEBUG "Getting all links" log).

(** [HtmlPage.click_link(link_text)] *)
Definition click_link (self : BasePage Page) (link_text : string)
    (log : list LogRecord) : Step unit :=
  act self (fun p => click_ engine p ("text=" +:+ link_text))
    (emit DEBUG ("Clicking link: " +:+ link_text) log).

(** [HtmlPage.get_page_url()] *)
Definition get_page_url (self : BasePage Page) (log : list LogRecord) : Step string :=
  ask self (fun p => Returns (url_ engine p)) (emit DEBUG "Getting page URL" log).

End Methods.

End PageOps.


(** ** Vocabulary for the log of the page objects *)
Module PageSpec.
Import Logging.

(** The one-record log a method adds. *)
Definition record (l : Level) (m : string) : list LogRecord :=
  [ {| level := l; message := m |} ].

End PageSpec.

(** ** A small page with anchors, for the examples *)
Module LinkExamples.
Import BasePage PageOps.

(** An anchor with its [href], if any, or one that has left the document
    since it was counted. *)
Inductive Anchor := Href (h : option string) | Detached.

(** The page: the URL shown and the anchors in document order. *)
Record Doc := { shown : string; anchors : list Anchor }.

Definition detached_error : PyException :=
  {| exc_class := PlaywrightTimeoutError; exc_str := "Timeout 30000ms exceeded." |}.

Definition no_effect (d : Doc) : Outcome unit * Doc := (Returns tt, d).

Definition demo_engine : Engine Doc :=
  {| goto := fun d u => (Returns tt, {| shown := u; anchors := anchors d |});
     wait_for_load_state_ := fun d _ => no_effect d;
     wait_for_selector_ := fun d _ _ => no_effect d;
     click_ := fun d _ => no_effect d;
     fill_ := fun d _ _ => no_effect d;
     type_ := fun d _ _ _ => no_effect d;
     select_option_ := fun d _ _ => no_effect d;
     screenshot := fun d _ => (Returns "PNG", d);
     reload_ := no_effect;
     go_back_ := no_effect;
     go_forward_ := no_effect;
     close_ := no_effect;
     text_content := fun _ _ => Returns None;
     get_attribute_ := fun _ _ _ => Returns None;
     url_ := shown;
     title := fun _ => Returns "Demo";
     locator_count := fun d _ => Returns (length (anchors d));
     locator_nth_get_attribute := fun d _ i _ =>
       match anchors d !! i with
       | Some (Href h) => Returns h
       | _ => Raises detached_error
       end |}.

Definition two_links : Doc :=
  {| shown := "about:blank"; anchors := [Href (Some "/a"); Href None] |}.

Definition broken_links : Doc :=
  {| shown := "about:blank"; anchors := [Href (Some "/a"); Detached; Detached] |}.

(** A reading of the clock on New Year's Day of the following year. *)
Definition clock_next_year : Helpers.datetime :=
  {| Helpers.year := 2027; Helpers.month := 1; Helpers.day := 1;
     Helpers.hour := 0; Helpers.minute := 0; Helpers.second := 0;
     Helpers.microsecond := 0 |}.

End LinkExamples.

(** ** The logging shortcuts of [utils/logger.py] *)
Module LoggerOps.
Import Logging Logger.

(** [cls.get_logger().<level>(message)]: the singleton is looked up, or
    set up, without a name; the result is the logger the record goes to
    and the record. *)
Definition log_via (l : Level) (m : string) (st : State)
  : (option string * LogRecord) * State :=
  let '(r, st1) := get_logger None st in
  ((r, {| level := l; message := m |}), st1).

(** [Logger.info(message)] *)
Definition info : string -> State -> (option string * LogRecord) * State :=
  log_via INFO.

(** [Logger.debug(message)] *)
Definition debug : string -> State -> (option string * LogRecord) * State :=
  log_via DEBUG.

(** [Logger.warning(message)] *)
Definition warning : string -> State -> (option string * LogRecord) * State :=
  log_via WARNING.

(** [Logger.error(message)] *)
Definition error : string -> State -> (option string * LogRecord) * State :=
  log_via ERROR.

(** [Logger.critical(message)] *)
Definition critical : string -> State -> (option string * LogRecord) * State :=
  log_via CRITICAL.

(** The name [get_logger(name)] sets the logger up with: [name or
    "playwright-demo"]. *)
Definition name_or_default (name : option string) : string :=
  match name with
  | Some n => if PyStr.truthy n then n else "playwright-demo"
  | None => "playwright-demo"
  end.


End LoggerOps.

(** ** Vocabulary for comparing timestamps *)
Module TimestampSpec.
Import Helpers.

(** The number a string of decimal digits denotes. *)
Definition digit_value (c : ascii) : N := (N_of_ascii c - 48)%N.

Fixpoint read_digits (s : string) : N :=
  match s with
  | EmptyString => 0%N
  | String c s' =>
      (digit_value c * 10 ^ N.of_nat (String.length s') + read_digits s')%N
  end.

(** [n], zero-filled to [w] characters, denotes [n]. *)
Definition reads_back (w : nat) (n : N) : bool :=
  (read_digits (zfill w (pretty n)) =? n)%N.

(** Lexicographic combination of two comparisons. *)
Definition lex (c1 c2 : comparison) : comparison :=
  match c1 with
  | Eq => c2
  | _ => c1
  end.

(** Which of two clock readings comes first, to the second. *)
Definition chrono_compare (a b : datetime) : comparison :=
  lex (year a ?= year b)%N
    (lex (month a ?= month b)%N
       (lex (day a ?= day b)%N
          (lex (hour a ?= hour b)%N
             (lex (minute a ?= minute b)%N (second a ?= second b)%N)))).

End TimestampSpec.

(** * Properties *)

(** ** Facts about the string primitives *)
Module PyStrFacts.
Import PyStr.

(** Unfolding equations of string append ([simpl] leaves it folded). *)
Lemma app_nil (s : string) : EmptyString +:+ s = s.
Proof. reflexivity. Qed.

Lemma app_cons c (p s : string) : String c p +:+ s = String c (p +:+ s).
Proof. reflexivity. Qed.

Lemma app_assoc (p q r : string) : (p +:+ q) +:+ r = p +:+ (q +:+ r).
Proof.
  induction p as [|c p IH]; [reflexivity|].
  rewrite !app_cons. now rewrite IH.
Qed.

Lemma app_length (p q : string) :
  String.length (p +:+ q) = String.length p + String.length q.
Proof.
  induction p as [|c p IH]; [reflexivity|].
  rewrite app_cons. simpl. now rewrite IH.
Qed.

Lemma startswith_app p s : startswith (p +:+ s) p = true.
Proof.
  induction p as [|c p IH]; [reflexivity|].
  rewrite app_cons. simpl. now rewrite Ascii.eqb_refl.
Qed.

Lemma startswith_spec s p :
  startswith s p = true <-> exists r, s = p +:+ r.
Proof.
  split.
  - revert s; induction p as [|c p IH]; intros s H; simpl in *.
    + now exists s.
    + destruct s as [|d s]; [discriminate|].
      destruct (Ascii.eqb_spec d c) as [->|]; [|discriminate].
      destruct (IH _ H) as [r ->]. now exists r.
  - intros [r ->]. apply startswith_app.
Qed.

Lemma startswith_trans s p q :
  startswith s p = true -> startswith p q = true -> startswith s q = true.
Proof.
  rewrite !startswith_spec. intros [r ->] [r' ->].
  exists (r' +:+ r). apply app_assoc.
Qed.

Lemma lstrip_not_head c s : startswith (lstrip c s) (String c EmptyString) = false.
Proof.
  induction s as [|d s IH]; simpl; [reflexivity|].
  destruct (Ascii.eqb_spec d c) as [->|Hne]; [exact IH|].
  simpl. destruct (Ascii.eqb_spec d c); [contradiction|reflexivity].
Qed.

Lemma lstrip_idem c s : lstrip c (lstrip c s) = lstrip c s.
Proof.
  induction s as [|d s IH]; simpl; [reflexivity|].
  destruct (Ascii.eqb d c) eqn:E; [exact IH|]. simpl. now rewrite E.
Qed.

Lemma lstrip_cons c s : lstrip c (String c s) = lstrip c s.
Proof. simpl. now rewrite Ascii.eqb_refl. Qed.

Lemma rstrip_no_trailing c s :
  endswith_char s c = false -> rstrip c s = s.
Proof.
  induction s as [|d s IH]; simpl; [reflexivity|].
  destruct s as [|e s].
  - simpl. now intros ->.
  - intros H. rewrite (IH H). reflexivity.
Qed.

End PyStrFacts.

(** ** Facts about the header store *)
Module HeadersFacts.
Import Headers.

Section Store.

Variable lower : string -> string.

Lemma get_setitem_same k v h : get lower k (setitem lower k v h) = Some v.
Proof. unfold get, setitem. now rewrite lookup_insert_eq. Qed.

Lemma get_setitem_other k k' v h :
  lower k <> lower k' -> get lower k' (setitem lower k v h) = get lower k' h.
Proof. intros Hne. unfold get, setitem. now rewrite lookup_insert_ne. Qed.

Lemma get_delitem_other k k' h :
  lower k <> lower k' -> get lower k' (delitem lower k h) = get lower k' h.
Proof. intros Hne. unfold get, delitem. now rewrite lookup_delete_ne. Qed.

Lemma setitem_setitem k v v' h :
  setitem lower k v' (setitem lower k v h) = setitem lower k v' h.
Proof. unfold setitem. apply insert_insert_eq. Qed.

End Store.

End HeadersFacts.

(** ** URL resolution: [APIClient._build_url] *)
Module BuildUrl.
Import ApiClient PyStr PyStrFacts UrlSpec Examples.

Lemma client_at_base base : truthy base = true -> base_url (client_at base) = base.
Proof. unfold client_at, __init__. simpl. now intros ->. Qed.

Lemma build_url_relative c endpoint :
  startswith endpoint "http" = false ->
  _build_url c endpoint = base_url c +:+ "/" +:+ lstrip slash endpoint.
Proof. unfold _build_url. now intros ->. Qed.

Lemma build_url_absolute c endpoint :
  startswith endpoint "http" = true -> _build_url c endpoint = endpoint.
Proof. unfold _build_url. now intros ->. Qed.

(** The same URL comes out whatever the number of leading slashes. *)
Lemma build_url_leading_slash c endpoint :
  _build_url c (String slash endpoint) = _build_url c endpoint \/
  startswith endpoint "http" = true.
Proof.
  destruct (startswith endpoint "http") eqn:E; [now right|left].
  rewrite (build_url_relative c endpoint E).
  unfold _build_url. simpl startswith. now rewrite lstrip_cons.
Qed.

(** C1, as stated, fails: a trailing slash on [base_url] is kept, so the
    separator is doubled. *)
Lemma build_url_one_slash_fails :
  ~ (forall (c : APIClient) (endpoint : string),
        starts_with_scheme endpoint = false ->
        _build_url c endpoint = join_one_slash (base_url c) endpoint).
Proof.
  intros H.
  specialize (H (client_at "https://api.example.test/") "items/1" eq_refl).
  vm_compute in H. discriminate H.
Qed.

(** An endpoint without any scheme that begins with the letters [http] is
    returned as it is, not joined to [base_url]. *)
Lemma build_url_http_word :
  starts_with_scheme "httpbin/get" = false /\
  _build_url (client_at "https://api.example.test") "httpbin/get" = "httpbin/get".
Proof. split; reflexivity. Qed.

(** C1 (amended): for every client and every endpoint that does not begin
    with the characters [http], the URL is [base_url], one slash, and the
    endpoint without its leading slashes; what follows that slash never
    begins with a slash; and when [base_url] has no trailing slash the URL
    is the one-slash join of the specification. *)
Theorem build_url_joins (c : APIClient) (endpoint : string) :
  startswith endpoint "http" = false ->
  _build_url c endpoint = base_url c +:+ "/" +:+ lstrip slash endpoint
  /\ startswith (lstrip slash endpoint) "/" = false
  /\ (endswith_char (base_url c) slash = false ->
      _build_url c endpoint = join_one_slash (base_url c) endpoint).
Proof.
  intros Hrel. rewrite (build_url_relative c endpoint Hrel).
  split; [reflexivity|]. split; [apply lstrip_not_head|].
  intros Hbase. unfold join_one_slash. now rewrite rstrip_no_trailing.
Qed.

Lemma build_url_joins_witness :
  _build_url (client_at "https://api.example.test") "//items/1"
  = "https://api.example.test/items/1"
  /\ _build_url (client_at "https://api.example.test") "//items/1"
     = join_one_slash "https://api.example.test" "//items/1".
Proof.
  destruct (build_url_joins (client_at "https://api.example.test") "//items/1" eq_refl)
    as (H1 & _ & H3).
  split; [exact H1 | exact (H3 eq_refl)].
Defined.

(** C2, as stated, fails: an absolute URL whose scheme is not [http...] is
    resolved against [base_url] instead of being passed through. *)
Lemma build_url_scheme_fails :
  ~ (forall (c : APIClient) (endpoint : string),
        _build_url c endpoint =
        if starts_with_scheme endpoint then endpoint
        else base_url c +:+ "/" +:+ lstrip slash endpoint).
Proof.
  intros H.
  specialize (H (client_at "https://api.example.test") "ftp://files.example.test/a").
  vm_compute in H. discriminate H.
Qed.

(** C2 (amended): the endpoint is passed through unchanged exactly when it
    begins with the characters [http], which covers every [http://] and
    [https://] URL; every other endpoint is resolved against [base_url]. *)
Theorem build_url_passthrough (c : APIClient) (endpoint : string) :
  (startswith endpoint "http" = true -> _build_url c endpoint = endpoint)
  /\ (startswith endpoint "http" = false ->
      _build_url c endpoint = base_url c +:+ "/" +:+ lstrip slash endpoint)
  /\ (startswith endpoint "http://" = true \/ startswith endpoint "https://" = true ->
      _build_url c endpoint = endpoint).
Proof.
  split; [apply build_url_absolute|]. split; [apply build_url_relative|].
  intros [H|H]; apply build_url_absolute;
    eapply startswith_trans; try exact H; reflexivity.
Qed.

Lemma build_url_passthrough_witness :
  _build_url (client_at "https://api.example.test") "https://other.example.test/x"
  = "https://other.example.test/x"
  /\ _build_url (client_at "https://api.example.test") "/items/1"
     = "https://api.example.test/items/1".
Proof.
  destruct (build_url_passthrough (client_at "https://api.example.test")
              "https://other.example.test/x") as (H1 & _ & _).
  destruct (build_url_passthrough (client_at "https://api.example.test")
              "/items/1") as (_ & H2 & _).
  split; [exact (H1 eq_refl) | exact (H2 eq_refl)].
Defined.

End BuildUrl.

(** ** Headers, requests and closing: [APIClient] *)
Module ClientProps.
Import Logging ApiClient Caller Wire Examples HeadersFacts.

Ltac run_monad :=
  unfold set_auth_header, set_header, close, session_set_header, set_session,
    get_self, logger, bind, ret, raise, try_except; simpl.

Section WithTransport.

Variable lower : string -> string.
Variable transport : list Request -> Request -> Response + RequestException.

(** Keyword arguments that say nothing about a header leave the session's
    value of it on the request. *)
Lemma merge_headers_leaves k kw h :
  leaves_header lower k kw ->
  Headers.get lower k (merge_headers lower kw h) = Headers.get lower k h.
Proof.
  intros [Hd Ha]. unfold merge_headers.
  assert (Hf : forall d acc,
             Forall (fun kv : string * option string => lower (fst kv) <> lower k) d ->
             Headers.get lower k
               (fold_left
                  (fun acc kv =>
                     match snd kv with
                     | Some v => Headers.setitem lower (fst kv) v acc
                     | None => Headers.delitem lower (fst kv) acc
                     end) d acc)
             = Headers.get lower k acc).
  { induction d as [|[k0 [v0|]] d IH]; intros acc Hall; [reflexivity| |];
      inversion Hall as [|? ? Hne Hrest]; subst; cbn [fold_left fst snd];
      rewrite (IH _ Hrest).
    - now apply get_setitem_other.
    - now apply get_delitem_other. }
  assert (H1 : Headers.get lower k
                 match kw_headers kw with
                 | Some d =>
                     fold_left
                       (fun acc kv =>
                          match snd kv with
                          | Some v => Headers.setitem lower (fst kv) v acc
                          | None => Headers.delitem lower (fst kv) acc
                          end) d h
                 | None => h
                 end
               = Headers.get lower k h).
  { destruct (kw_headers kw) as [d|]; [now apply Hf | reflexivity]. }
  destruct (kw_auth kw) as [a|] eqn:E; [|exact H1].
  rewrite get_setitem_other; [exact H1|].
  intros Heq. symmetry in Heq. specialize (Ha Heq). discriminate Ha.
Qed.

(** A session request puts exactly one request on the wire, carrying the
    merged headers, and changes neither the session's headers nor the
    settings. *)
Lemma Session_request_wire v u p d j tmo kw st :
  let st' := snd (Session_request lower transport v u p d j tmo kw st) in
  (exists req, wire st' = wire st ++ [req]
               /\ req_headers req = merge_headers lower kw (headers (session (self st)))
               /\ verb req = v /\ url req = u /\ req_timeout req = tmo)
  /\ headers (session (self st')) = headers (session (self st))
  /\ base_url (self st') = base_url (self st)
  /\ timeout (self st') = timeout (self st)
  /\ adapters (session (self st')) = adapters (session (self st)).
Proof.
  unfold Session_request. destruct (transport _ _); simpl;
    (split; [eexists; repeat split; reflexivity | repeat split]).
Qed.

Lemma perform_wire c st :
  let st' := snd (perform lower transport c st) in
  (exists req, wire st' = wire st ++ [req]
               /\ req_headers req
                  = merge_headers lower (kwargs_of c) (headers (session (self st))))
  /\ headers (session (self st')) = headers (session (self st)).
Proof.
  destruct c; unfold perform, get, post, put, patch, delete; run_monad;
  match goal with
  | |- context [Session_request lower transport ?v ?u ?p ?d ?j ?t ?k ?s] =>
      pose proof (Session_request_wire v u p d j t k s) as H;
      destruct (Session_request lower transport v u p d j t k s) as [[r|e] st2];
      simpl in *; destruct H as ((req & Hw & Hh & _) & Hs & _);
      (split; [exists req; split; assumption | assumption])
  end.
Qed.

Lemma run_wire cs : forall st,
  let st' := run lower transport cs st in
  (exists sent, wire st' = wire st ++ sent
                /\ Forall2 (fun c req =>
                              req_headers req
                              = merge_headers lower (kwargs_of c)
                                  (headers (session (self st)))) cs sent)
  /\ headers (session (self st')) = headers (session (self st)).
Proof.
  induction cs as [|c cs IH]; intros st; simpl.
  - split; [|reflexivity]. exists []. rewrite app_nil_r. split; [reflexivity|constructor].
  - destruct (perform_wire c st) as ((req & Hw & Hh) & Hs).
    destruct (IH (snd (perform lower transport c st))) as ((sent & Hw' & Hall) & Hs').
    split.
    + exists (req :: sent). rewrite Hw', Hw, <- app_assoc. simpl.
      split; [reflexivity|].
      constructor; [exact Hh|]. now rewrite <- Hs.
    + now rewrite Hs'.
Qed.

End WithTransport.

Lemma set_auth_header_headers lower token ht st :
  headers (session (self (snd (set_auth_header lower token ht st))))
  = Headers.setitem lower "Authorization" (default "Bearer" ht +:+ " " +:+ token)
      (headers (session (self st))).
Proof. reflexivity. Qed.

Lemma set_header_headers lower key value st :
  headers (session (self (snd (set_header lower key value st))))
  = Headers.setitem lower key value (headers (session (self st))).
Proof. reflexivity. Qed.

(** C4, as stated, fails: a call that passes an [Authorization] header of
    its own in its keyword arguments goes out with that header, not with
    the one [set_auth_header] stored. *)
Lemma set_auth_header_overridden :
  ~ (forall (lower : string -> string)
       (transport : list Request -> Request -> Response + RequestException)
       (token : string) (cs : list Call) (st : State),
        let st1 := snd (set_auth_header lower token None st) in
        let st2 := run lower transport cs st1 in
        exists sent, wire st2 = wire st ++ sent
          /\ length sent = length cs
          /\ Forall (fun req =>
               Headers.get lower "Authorization" (req_headers req)
               = Some ("Bearer " +:+ token)) sent).
Proof.
  intros H.
  specialize (H Headers.ascii_lower ok_transport "abc"
                [CallGet "/items/1" None own_authorization]
                (state_at "https://api.example.test")).
  cbv zeta in H. destruct H as (sent & Hw & _ & Hall).
  vm_compute in Hw. subst sent.
  inversion Hall as [|req rest Hreq _]. vm_compute in Hreq. discriminate Hreq.
Qed.

(** C4 (amended): after [set_auth_header(token)], in any later sequence of
    get/post/put/patch/delete calls every request whose call does not
    give it an [Authorization] of its own ([headers=] or [auth=] among the
    keyword arguments) carries [Authorization: Bearer <token>]; a second
    call with a new token overwrites the value and leaves the number of
    header entries as it was; and [set_auth_header("abc")] stores exactly
    [Authorization: Bearer abc]. *)
Theorem set_auth_header_carried (lower : string -> string)
    (transport : list Request -> Request -> Response + RequestException)
    (token token' : string) (cs : list Call) (st : State) :
  let st1 := snd (set_auth_header lower token None st) in
  let st2 := run lower transport cs st1 in
  let st3 := snd (set_auth_header lower token' None st2) in
  (exists sent, wire st2 = wire st ++ sent
      /\ Forall2 (fun c req =>
           leaves_header lower "Authorization" (kwargs_of c) ->
           Headers.get lower "Authorization" (req_headers req)
           = Some ("Bearer " +:+ token))
           cs sent)
  /\ Headers.get lower "Authorization" (headers (session (self st3)))
     = Some ("Bearer " +:+ token')
  /\ size (headers (session (self st3))) = size (headers (session (self st1)))
  /\ headers (session (self st3))
     = headers (session (self (snd (set_auth_header lower token' None st))))
  /\ headers (session (self (snd (set_auth_header lower "abc" None st))))
       !! lower "Authorization"
     = Some ("Authorization", "Bearer abc").
Proof.
  intros st1 st2 st3.
  destruct (run_wire lower transport cs st1) as ((sent & Hw & Hall) & Hs).
  fold st2 in Hw, Hs.
  assert (H1 : headers (session (self st1))
               = Headers.setitem lower "Authorization" ("Bearer " +:+ token)
                   (headers (session (self st)))) by reflexivity.
  assert (H3 : headers (session (self st3))
               = Headers.setitem lower "Authorization" ("Bearer " +:+ token')
                   (headers (session (self st2)))) by reflexivity.
  repeat split.
  - exists sent. split; [exact Hw|].
    eapply Forall2_impl; [exact Hall|].
    intros c req Hreq Hleave. cbv beta in Hreq.
    rewrite Hreq, (merge_headers_leaves lower _ _ _ Hleave), H1.
    apply get_setitem_same.
  - rewrite H3. apply get_setitem_same.
  - rewrite H3, Hs, H1. unfold Headers.setitem.
    rewrite insert_insert_eq.
    rewrite !map_size_insert. reflexivity.
  - rewrite H3, Hs, H1. rewrite setitem_setitem. reflexivity.
  - unfold set_auth_header. run_monad. unfold Headers.setitem.
    apply lookup_insert_eq.
Qed.

Lemma set_auth_header_carried_witness :
  (fun req => Headers.get Headers.ascii_lower "Authorization" (req_headers req))
    <$> wire (run Headers.ascii_lower ok_transport
                [CallPost "/posts" None (Some "{}") custom_headers]
                (snd (set_auth_header Headers.ascii_lower "abc" None
                        (state_at "https://api.example.test"))))
  = [Some "Bearer abc"].
Proof.
  destruct (set_auth_header_carried Headers.ascii_lower ok_transport "abc" "xyz"
              [CallPost "/posts" None (Some "{}") custom_headers]
              (state_at "https://api.example.test"))
    as ((sent & Hw & Hall) & _).
  cbv zeta in Hw. rewrite Hw.
  inversion Hall as [|c req cs' sent' Hreq Hrest]; subst.
  inversion Hrest; subst.
  assert (Hleave : leaves_header Headers.ascii_lower "Authorization" custom_headers).
  { split; [repeat constructor; discriminate | reflexivity]. }
  specialize (Hreq Hleave).
  unfold state_at. cbn [wire app]. rewrite fmap_cons, Hreq. reflexivity.
Defined.

Lemma session_set_header_frame lower key value st :
  let st' := snd (session_set_header lower key value st) in
  same_settings (self st') (self st)
  /\ wire st' = wire st /\ log st' = log st
  /\ (forall k : string, k <> lower key ->
        headers (session (self st')) !! k = headers (session (self st)) !! k).
Proof.
  run_monad. unfold same_settings. simpl. repeat split.
  intros k Hk. unfold Headers.setitem. now rewrite lookup_insert_ne.
Qed.

(** C10: [set_header(key, value)] and [set_auth_header(token, scheme)]
    write one entry of the session's header store, the one of [key]
    (respectively [Authorization]); base_url, timeout, the mounted adapters
    with their retry configuration, the pool, and every header of another
    name are as before.  This holds whatever normalisation the header set
    applies to names. *)
Theorem set_header_frame (lower : string -> string)
    (key value token : string) (scheme : option string) (st : State) :
  let st1 := snd (set_header lower key value st) in
  let st2 := snd (set_auth_header lower token scheme st) in
  (same_settings (self st1) (self st)
   /\ Headers.get lower key (headers (session (self st1))) = Some value
   /\ (forall k : string, k <> lower key ->
         headers (session (self st1)) !! k = headers (session (self st)) !! k)
   /\ (forall k' : string, lower k' <> lower key ->
         Headers.get lower k' (headers (session (self st1)))
         = Headers.get lower k' (headers (session (self st)))))
  /\ (same_settings (self st2) (self st)
      /\ (forall k : string, k <> lower "Authorization" ->
            headers (session (self st2)) !! k = headers (session (self st)) !! k)
      /\ (forall k' : string, lower k' <> lower "Authorization" ->
            Headers.get lower k' (headers (session (self st2)))
            = Headers.get lower k' (headers (session (self st))))).
Proof.
  intros st1 st2.
  destruct (session_set_header_frame lower key value st) as (Hs & _ & _ & Hk).
  destruct (session_set_header_frame lower "Authorization"
              (default "Bearer" scheme +:+ " " +:+ token) st) as (Hs' & _ & _ & Hk').
  split; [split; [exact Hs|split; [|split]] | split; [exact Hs'|split]].
  - unfold st1. rewrite set_header_headers. apply get_setitem_same.
  - exact Hk.
  - intros k' Hne. unfold st1. rewrite set_header_headers.
    apply get_setitem_other. congruence.
  - exact Hk'.
  - intros k' Hne. unfold st2. rewrite set_auth_header_headers.
    apply get_setitem_other. congruence.
Qed.

Lemma set_header_frame_witness :
  Headers.get Headers.ascii_lower "Accept"
    (headers (session (self (snd (set_header Headers.ascii_lower "X-Trace" "1"
                                    (state_at "https://api.example.test"))))))
  = Some "application/json"
  /\ Headers.get Headers.ascii_lower "User-Agent"
       (headers (session (self (snd (set_auth_header Headers.ascii_lower "abc" None
                                       (state_at "https://api.example.test"))))))
     = Some "Playwright-Demo/1.0".
Proof.
  destruct (set_header_frame Headers.ascii_lower "X-Trace" "1" "abc" None
              (state_at "https://api.example.test"))
    as ((_ & _ & _ & H1) & (_ & _ & H2)).
  split.
  - rewrite (H1 "Accept"); [reflexivity | discriminate].
  - rewrite (H2 "User-Agent"); [reflexivity | discriminate].
Defined.


Lemma close_self st :
  self (snd (close st))
  = {| base_url := base_url (self st);
       timeout := timeout (self st);
       session := Session_close (session (self st)) |}
  /\ fst (close st) = Return tt
  /\ wire (snd (close st)) = wire st
  /\ log (snd (close st)) = emit INFO "Closing API client session" (log st).
Proof. repeat split. Qed.

Lemma close_times_self n : forall st,
  self (close_times (S n) st) = self (snd (close st)).
Proof.
  induction n as [|n IH]; intros st; [reflexivity|].
  change (close_times (S (S n)) st) with (close_times (S n) (snd (close st))).
  rewrite IH. reflexivity.
Qed.

(** C8: [close()] returns normally and empties the connection pool; the
    client after two, or any larger number of, calls is the client after
    one call; [__exit__] is [close()] whatever the pending exception; and
    the [with] statement runs it after the body on both exits, handing on
    the body's value or re-raising its exception. *)
Theorem close_idempotent (A : Type) (body : APIClient -> M A)
    (exc : option RequestException) (n : nat) (st : State) :
  fst (close st) = Return tt
  /\ pool (session (self (snd (close st)))) = []
  /\ self (snd (close (snd (close st)))) = self (snd (close st))
  /\ self (close_times (S n) st) = self (snd (close st))
  /\ __exit__ exc st = close st
  /\ with_ body st
     = (fst (body (self st) st), snd (close (snd (body (self st) st)))).
Proof.
  split; [reflexivity|]. split; [reflexivity|]. split; [reflexivity|].
  split; [apply close_times_self|]. split; [reflexivity|].
  unfold with_, __enter__, get_self. simpl.
  destruct (body (self st) st) as [[a|e] st1]; reflexivity.
Qed.

(** A request fills the pool, [close()] empties it, and the [with]
    statement leaves a closed client behind. *)
Example close_releases_pool :
  let st := state_at "https://api.example.test" in
  let st1 := snd (get Headers.ascii_lower ok_transport "/items/1" None no_kwargs st) in
  pool (session (self st1)) = ["https://api.example.test/items/1"]
  /\ pool (session (self (snd (close st1)))) = []
  /\ pool (session (self (snd (with_
            (fun _ => get Headers.ascii_lower ok_transport "/items/1" None no_kwargs)
            st)))) = [].
Proof. repeat split. Qed.

End ClientProps.

(** ** Fail-safe queries: [BasePage.is_visible], [BasePage.is_enabled] *)
Module PageProps.
Import Logging BasePage PageExamples.

Section Queries.

Context {Page : Type}.
Variable vis ena : Page -> string -> Outcome bool.

Lemma is_visible_cases (self : BasePage Page) selector log :
  match vis (page self) selector with
  | Returns b => is_visible vis self selector log = (Returns b, log)
  | Raises e =>
      if isinstance_Exception (exc_class e) then
        is_visible vis self selector log
        = (Returns false,
           emit WARNING
             ("Error checking visibility of " +:+ selector +:+ ": " +:+ exc_str e) log)
      else is_visible vis self selector log = (Raises e, log)
  end.
Proof.
  unfold is_visible. destruct (vis _ _) as [b|e]; [reflexivity|].
  destruct (isinstance_Exception _); reflexivity.
Qed.

Lemma is_enabled_cases (self : BasePage Page) selector log :
  match ena (page self) selector with
  | Returns b => is_enabled ena self selector log = (Returns b, log)
  | Raises e =>
      if isinstance_Exception (exc_class e) then
        is_enabled ena self selector log
        = (Returns false,
           emit WARNING
             ("Error checking if " +:+ selector +:+ " is enabled: " +:+ exc_str e) log)
      else is_enabled ena self selector log = (Raises e, log)
  end.
Proof.
  unfold is_enabled. destruct (ena _ _) as [b|e]; [reflexivity|].
  destruct (isinstance_Exception _); reflexivity.
Qed.

End Queries.

(** C3: for every page state and selector, when the engine call ends with
    an error (an instance of [Exception]), [is_visible] and [is_enabled]
    return [False] and add one warning to the log; no error ever leaves
    them (what they can let through is not an instance of [Exception]);
    and a value the engine returns is handed on with the log untouched. *)
Theorem visibility_checks_never_raise (Page : Type)
    (vis ena : Page -> string -> Outcome bool)
    (self : BasePage Page) (selector : string) (log : list LogRecord) :
  (forall e, vis (page self) selector = Raises e ->
             isinstance_Exception (exc_class e) = true ->
             is_visible vis self selector log
             = (Returns false,
                emit WARNING
                  ("Error checking visibility of " +:+ selector +:+ ": " +:+ exc_str e)
                  log))
  /\ (forall e, ena (page self) selector = Raises e ->
                isinstance_Exception (exc_class e) = true ->
                is_enabled ena self selector log
                = (Returns false,
                   emit WARNING
                     ("Error checking if " +:+ selector +:+ " is enabled: " +:+ exc_str e)
                     log))
  /\ (forall e, fst (is_visible vis self selector log) = Raises e ->
                isinstance_Exception (exc_class e) = false)
  /\ (forall e, fst (is_enabled ena self selector log) = Raises e ->
                isinstance_Exception (exc_class e) = false)
  /\ (forall b, vis (page self) selector = Returns b ->
                is_visible vis self selector log = (Returns b, log))
  /\ (forall b, ena (page self) selector = Returns b ->
                is_enabled ena self selector log = (Returns b, log)).
Proof.
  pose proof (is_visible_cases vis self selector log) as Hv.
  pose proof (is_enabled_cases ena self selector log) as He.
  repeat split.
  - intros e Hr Hi. rewrite Hr, Hi in Hv. exact Hv.
  - intros e Hr Hi. rewrite Hr, Hi in He. exact He.
  - intros e Hr. destruct (vis (page self) selector) as [b|e0].
    + rewrite Hv in Hr. discriminate Hr.
    + destruct (isinstance_Exception (exc_class e0)) eqn:Hi;
        rewrite Hv in Hr; simpl in Hr; [discriminate Hr|].
      injection Hr as <-. exact Hi.
  - intros e Hr. destruct (ena (page self) selector) as [b|e0].
    + rewrite He in Hr. discriminate Hr.
    + destruct (isinstance_Exception (exc_class e0)) eqn:Hi;
        rewrite He in Hr; simpl in Hr; [discriminate Hr|].
      injection Hr as <-. exact Hi.
  - intros b Hr. rewrite Hr in Hv. exact Hv.
  - intros b Hr. rewrite Hr in He. exact He.
Qed.

Lemma visibility_checks_never_raise_witness :
  fst (is_visible demo_query closed_page "h1" []) = Returns false
  /\ length (snd (is_visible demo_query closed_page "h1" [])) = 1
  /\ fst (is_enabled demo_query open_page "<<bad" []) = Returns false
  /\ is_visible demo_query open_page "h1" [] = (Returns true, []).
Proof.
  destruct (visibility_checks_never_raise DemoPage demo_query demo_query
              closed_page "h1" []) as (Hv & _).
  destruct (visibility_checks_never_raise DemoPage demo_query demo_query
              open_page "<<bad" []) as (_ & He & _).
  destruct (visibility_checks_never_raise DemoPage demo_query demo_query
              open_page "h1" []) as (_ & _ & _ & _ & Hb & _).
  rewrite (Hv _ eq_refl eq_refl), (He _ eq_refl eq_refl), (Hb _ eq_refl).
  repeat split.
Defined.

End PageProps.

(** ** Timestamped file names: [Helpers] *)
Module HelpersProps.
Import PyStr PyStrFacts Helpers PageExamples.

(** The format string, directive by directive. *)
Lemma get_timestamp_fields now :
  get_timestamp now
  = zfill 4 (pretty (year now)) +:+ zfill 2 (pretty (month now))
    +:+ zfill 2 (pretty (day now)) +:+ "_"
    +:+ zfill 2 (pretty (hour now)) +:+ zfill 2 (pretty (minute now))
    +:+ zfill 2 (pretty (second now)).
Proof.
  unfold get_timestamp. cbv [strftime directive].
  rewrite app_cons, app_nil.
  replace (zfill 2 (pretty (second now)) +:+ EmptyString) with (zfill 2 (pretty (second now))).
  - reflexivity.
  - generalize (zfill 2 (pretty (second now))). intros s.
    induction s as [|c s IH]; [reflexivity|]. rewrite app_cons. now rewrite <- IH.
Qed.

Lemma padded_below (w : nat) (bound : N) :
  forallb (fun k => padded w (N.of_nat k)) (seq 0 (N.to_nat bound)) = true ->
  forall n : N, (n < bound)%N ->
    String.length (zfill w (pretty n)) = w /\ all_digits (zfill w (pretty n)) = true.
Proof.
  intros Hall n Hn. rewrite forallb_forall in Hall.
  specialize (Hall (N.to_nat n)). rewrite N2Nat.id in Hall.
  assert (Hin : In (N.to_nat n) (seq 0 (N.to_nat bound))) by (apply in_seq; lia).
  apply Hall in Hin. unfold padded in Hin.
  apply andb_prop in Hin as [Hlen Hdig].
  split; [now apply Nat.eqb_eq | exact Hdig].
Qed.

Lemma year_padded (n : N) : (n < 10000)%N ->
  String.length (zfill 4 (pretty n)) = 4 /\ all_digits (zfill 4 (pretty n)) = true.
Proof. apply padded_below. vm_compute. reflexivity. Qed.

Lemma field_padded (n : N) : (n < 100)%N ->
  String.length (zfill 2 (pretty n)) = 2 /\ all_digits (zfill 2 (pretty n)) = true.
Proof. apply padded_below. vm_compute. reflexivity. Qed.

Lemma is_timestamp_parts (y m d H M S : string) :
  String.length y = 4 -> all_digits y = true ->
  String.length m = 2 -> all_digits m = true ->
  String.length d = 2 -> all_digits d = true ->
  String.length H = 2 -> all_digits H = true ->
  String.length M = 2 -> all_digits M = true ->
  String.length S = 2 -> all_digits S = true ->
  is_timestamp (y +:+ m +:+ d +:+ "_" +:+ H +:+ M +:+ S) = true.
Proof.
  destruct y as [|y1 [|y2 [|y3 [|y4 [|? ?]]]]]; try discriminate.
  destruct m as [|m1 [|m2 [|? ?]]]; try discriminate.
  destruct d as [|d1 [|d2 [|? ?]]]; try discriminate.
  destruct H as [|H1 [|H2 [|? ?]]]; try discriminate.
  destruct M as [|M1 [|M2 [|? ?]]]; try discriminate.
  destruct S as [|S1 [|S2 [|? ?]]]; try discriminate.
  intros _ Hy _ Hm _ Hd _ HH _ HM _ HS.
  repeat (rewrite ?app_cons, ?app_nil).
  unfold is_timestamp.
  cbn [String.length Nat.eqb substring all_digits andb String.eqb Ascii.eqb] in *.
  repeat match goal with
         | Hx : _ && _ = true |- _ => apply andb_prop in Hx; destruct Hx
         end.
  repeat match goal with
         | Hx : is_digit _ = true |- _ => rewrite Hx; clear Hx
         end.
  reflexivity.
Qed.

Lemma get_timestamp_shape now : well_formed now -> is_timestamp (get_timestamp now) = true.
Proof.
  intros (Hy & Hm & Hd & HH & HM & HS & _).
  rewrite get_timestamp_fields.
  destruct (year_padded (year now)) as [? ?]; [lia|].
  destruct (field_padded (month now)) as [? ?]; [lia|].
  destruct (field_padded (day now)) as [? ?]; [lia|].
  destruct (field_padded (hour now)) as [? ?]; [lia|].
  destruct (field_padded (minute now)) as [? ?]; [lia|].
  destruct (field_padded (second now)) as [? ?]; [lia|].
  now apply is_timestamp_parts.
Qed.

Lemma get_timestamp_same_second a b :
  same_second a b -> get_timestamp a = get_timestamp b.
Proof.
  intros (Hy & Hm & Hd & HH & HM & HS).
  rewrite !get_timestamp_fields. now rewrite Hy, Hm, Hd, HH, HM, HS.
Qed.

Lemma digits_no_underscore (s t : string) :
  String.length s = 4 -> all_digits s = true -> startswith (s +:+ t) "_" = false.
Proof.
  destruct s as [|c s]; [discriminate|].
  intros _ Hd. cbn [all_digits] in Hd. apply andb_prop in Hd as [Hc _].
  rewrite app_cons. cbn [startswith].
  destruct (Ascii.eqb_spec c "_") as [->|]; [discriminate Hc | reflexivity].
Qed.

(** C9: with an empty prefix, [generate_unique_filename(prefix, extension)] is
    the timestamp followed by the extension, and it does not begin with an
    underscore; the separator is written exactly when the prefix is
    non-empty. *)
Theorem generate_unique_filename_no_prefix
    (now : datetime) (prefix extension : string) :
  generate_unique_filename now EmptyString extension = get_timestamp now +:+ extension
  /\ (well_formed now ->
      startswith (generate_unique_filename now EmptyString extension) "_" = false)
  /\ generate_unique_filename now prefix extension
     = (if truthy prefix then prefix +:+ "_" else EmptyString)
       +:+ get_timestamp now +:+ extension.
Proof.
  split; [reflexivity|]. split.
  - intros (Hy & _). unfold generate_unique_filename. cbn [truthy].
    rewrite get_timestamp_fields, app_assoc.
    destruct (year_padded (year now)) as [Hl Hd]; [lia|].
    now apply digits_no_underscore.
  - unfold generate_unique_filename. destruct (truthy prefix).
    + now rewrite app_assoc.
    + reflexivity.
Qed.

Lemma generate_unique_filename_no_prefix_witness :
  generate_unique_filename clock EmptyString ".png" = "20261104_090500.png"
  /\ startswith (generate_unique_filename clock EmptyString ".png") "_" = false.
Proof.
  assert (Hwf : well_formed clock) by (unfold well_formed, clock; simpl; lia).
  destruct (generate_unique_filename_no_prefix clock EmptyString ".png") as (H1 & H2 & _).
  split; [rewrite H1; reflexivity | exact (H2 Hwf)].
Defined.

End HelpersProps.

(** ** The logger singleton: [Logger.get_logger] *)
Module LoggerProps.
Import Logging Logger.

Lemma get_logger_set name st x :
  _logger st = Some x -> get_logger name st = (Some x, st).
Proof. intros H. unfold get_logger. now rewrite H. Qed.

Lemma get_logger_sets name st :
  exists x, fst (get_logger name st) = Some x
            /\ _logger (snd (get_logger name st)) = Some x.
Proof.
  unfold get_logger. destruct (_logger st) as [x|] eqn:E.
  - exists x. simpl. now split.
  - simpl. eexists. split; reflexivity.
Qed.

Lemma calls_set names : forall st x,
  _logger st = Some x ->
  calls names st = (repeat (Some x) (length names), st).
Proof.
  induction names as [|n names IH]; intros st x H; simpl; [reflexivity|].
  rewrite (get_logger_set n st x H). now rewrite (IH st x H).
Qed.

Lemma setup_handlers name st :
  let before := handlers (getLogger name (loggerDict st)) in
  handlers (getLogger name (loggerDict (_setup_logger name st)))
  = match before with
    | [] => [ {| handler_id := next_id st;
                 handler_level := DEBUG;
                 fmt := "%(asctime)s - %(name)s - %(levelname)s - %(message)s";
                 datefmt := "%Y-%m-%d %H:%M:%S" |} ]
    | _ :: _ => before
    end.
Proof.
  unfold _setup_logger. simpl. unfold getLogger at 1.
  rewrite lookup_insert_eq. simpl.
  destruct (handlers (getLogger name (loggerDict st))); reflexivity.
Qed.

Lemma setup_logger_handlers n st :
  exists added,
    handlers (getLogger n (loggerDict (_setup_logger n st)))
    = handlers (getLogger n (loggerDict st)) ++ added
    /\ length added <= 1.
Proof.
  pose proof (setup_handlers n st) as H. cbv zeta in H. rewrite H.
  destruct (handlers (getLogger n (loggerDict st))) as [|h hs].
  - eexists. split; [reflexivity|simpl; lia].
  - exists []. rewrite app_nil_r. split; [reflexivity|simpl; lia].
Qed.

Lemma get_logger_handlers name st :
  let r := fst (get_logger name st) in
  let st1 := snd (get_logger name st) in
  exists added, handlers_of r st1 = handlers_of r st ++ added /\ length added <= 1.
Proof.
  unfold get_logger. destruct (_logger st) as [x|] eqn:E.
  - exists []. rewrite app_nil_r. split; [reflexivity|simpl; lia].
  - cbv zeta. cbn [fst snd].
    change (_logger (_setup_logger ?n st)) with (Some n).
    cbn [handlers_of]. apply setup_logger_handlers.
Qed.

(** C7: the first [get_logger] call leaves [Logger._logger] set; every
    later call, whatever its [name] argument, returns that same logger and
    changes nothing; and over all the calls together at most one handler
    is added to that logger. *)
Theorem get_logger_singleton (name : option string)
    (names : list (option string)) (st : State) :
  let r := fst (get_logger name st) in
  let st1 := snd (get_logger name st) in
  let rs := fst (calls names st1) in
  let st2 := snd (calls names st1) in
  is_Some r
  /\ _logger st1 = r
  /\ Forall (fun r' => r' = r) rs
  /\ length rs = length names
  /\ st2 = st1
  /\ exists added,
       handlers_of r st2 = handlers_of r st ++ added /\ length added <= 1.
Proof.
  intros r st1 rs st2.
  destruct (get_logger_sets name st) as (x & Hr & Hl).
  fold r in Hr. fold st1 in Hl.
  assert (Hc : calls names st1 = (repeat (Some x) (length names), st1))
    by (now apply calls_set).
  unfold rs, st2. rewrite Hc. simpl.
  split; [rewrite Hr; now eexists|].
  split; [congruence|].
  split; [rewrite Hr; apply Forall_forall; intros y Hy;
          apply list_elem_of_In in Hy; apply repeat_spec in Hy; exact Hy|].
  split; [apply repeat_length|].
  split; [reflexivity|].
  apply get_logger_handlers.
Qed.

(** Three calls in a fresh process: one logger, one handler. *)
Example get_logger_three_calls :
  fst (calls [None; Some "other"; Some EmptyString] PageExamples.fresh_process)
  = [Some "playwright-demo"; Some "playwright-demo"; Some "playwright-demo"]
  /\ length (handlers_of (Some "playwright-demo")
               (snd (calls [None; Some "other"; Some EmptyString] PageExamples.fresh_process)))
     = 1.
Proof. split; vm_compute; reflexivity. Qed.

End LoggerProps.

(** ** The retry configuration of the session *)
Module RetryProps.
Import ApiClient RetryModel.

Lemma init_mounts lower config lib base tmo hdrs log0 :
  let c := fst (__init__ lower config lib base tmo hdrs log0) in
  adapters (session c) !! "https://" = Some {| max_retries := retry_strategy |}
  /\ adapters (session c) !! "http://" = Some {| max_retries := retry_strategy |}.
Proof.
  unfold __init__, mount. simpl. split.
  - apply lookup_insert_eq.
  - rewrite lookup_insert_ne by discriminate. apply lookup_insert_eq.
Qed.

Lemma retry_from_spec p server remaining : forall attempt,
  let ds := fst (retry_from p server remaining attempt) in
  let r := snd (retry_from p server remaining attempt) in
  length ds <= remaining
  /\ ds = map (backoff p) (seq attempt (length ds))
  /\ r = server (attempt + length ds)
  /\ (forall k, attempt <= k < attempt + length ds ->
                retryable p (status_code (server k)) = true)
  /\ (length ds < remaining -> retryable p (status_code r) = false).
Proof.
  induction remaining as [|n IH]; intros attempt; simpl.
  - destruct (retryable p (status_code (server attempt))) eqn:E; simpl;
      rewrite Nat.add_0_r; repeat split; try lia.
  - destruct (retryable p (status_code (server attempt))) eqn:E; simpl.
    + specialize (IH (S attempt)).
      destruct (retry_from p server n (S attempt)) as [ds r]. simpl in *.
      destruct IH as (H1 & H2 & H3 & H4 & H5).
      repeat split.
      * lia.
      * now rewrite <- H2.
      * rewrite H3. f_equal. lia.
      * intros k Hk. destruct (Nat.eq_dec k attempt) as [->|]; [exact E|].
        apply H4. lia.
      * intros Hlt. apply H5. lia.
    + rewrite Nat.add_0_r. repeat split; try lia. intros _. exact E.
Qed.

(** C5: the constructor mounts, for [http://] and [https://], an adapter
    whose retry strategy is [total=3, backoff_factor=1,
    status_forcelist=[429, 500, 502, 503, 504]]; under that policy a GET
    answered with one of these statuses is re-issued at most 3 times, the
    waits before the retries are 1, 2, 4 seconds ([1 * 2^attempt]), every
    response retried had a status of the list, and the caller gets the
    response of the last attempt, which is final either because its status
    is not in the list or because the 3 retries are used up. *)
Theorem retry_policy_get (lower : string -> string)
    (config : Config) (lib : list (string * string))
    (base : option string) (tmo : option Z)
    (hdrs : option (list (string * string)))
    (log0 : list Logging.LogRecord) (server : nat -> Response) :
  let c := fst (__init__ lower config lib base tmo hdrs log0) in
  let delays := fst (send_get retry_strategy server) in
  let final := snd (send_get retry_strategy server) in
  adapters (session c) !! "https://" = Some {| max_retries := retry_strategy |}
  /\ adapters (session c) !! "http://" = Some {| max_retries := retry_strategy |}
  /\ total retry_strategy = 3
  /\ backoff_factor retry_strategy = 1
  /\ (forall s, retryable retry_strategy s = true <->
                s = 429 \/ s = 500 \/ s = 502 \/ s = 503 \/ s = 504)
  /\ length delays <= 3
  /\ delays = map (fun attempt => 1 * 2 ^ attempt) (seq 0 (length delays))
  /\ final = server (length delays)
  /\ (forall k, k < length delays -> retryable retry_strategy (status_code (server k)) = true)
  /\ (length delays < 3 -> retryable retry_strategy (status_code final) = false)
  /\ ((forall k, status_code (server k) = 503) -> delays = [1; 2; 4]).
Proof.
  intros c delays final.
  destruct (init_mounts lower config lib base tmo hdrs log0) as [Hs Hp].
  pose proof (retry_from_spec retry_strategy server 3 0) as H. cbv zeta in H.
  change (retry_from retry_strategy server 3 0)
    with (send_get retry_strategy server) in H.
  destruct H as (H1 & H2 & H3 & H4 & H5).
  subst delays final.
  split; [exact Hs|]. split; [exact Hp|].
  split; [reflexivity|]. split; [reflexivity|].
  split.
  { intros s. unfold retryable, retry_strategy.
    cbn [status_forcelist existsb].
    rewrite !orb_true_iff, !Nat.eqb_eq. split; [intros H|intros H].
    - decompose [or] H; try discriminate; auto.
    - tauto. }
  split; [exact H1|]. split; [exact H2|]. split; [exact H3|].
  split; [intros k Hk; apply H4; lia|]. split; [exact H5|].
  intros Hall. unfold send_get. simpl.
  rewrite !Hall. reflexivity.
Qed.

Lemma retry_policy_get_witness :
  fst (send_get retry_strategy Examples.server_down) = [1; 2; 4]
  /\ status_code (snd (send_get retry_strategy Examples.server_down)) = 503
  /\ retryable retry_strategy
       (status_code (snd (send_get retry_strategy Examples.server_recovers))) = false.
Proof.
  destruct (retry_policy_get Headers.ascii_lower Examples.config
              Examples.library_headers None None None [] Examples.server_down)
    as (_ & _ & _ & _ & _ & _ & _ & Hf & _ & _ & Hd).
  destruct (retry_policy_get Headers.ascii_lower Examples.config
              Examples.library_headers None None None [] Examples.server_recovers)
    as (_ & _ & _ & _ & _ & _ & _ & _ & _ & Hr & _).
  split; [exact (Hd (fun _ => eq_refl))|].
  split; [rewrite Hf; reflexivity|].
  apply Hr. simpl. lia.
Defined.

End RetryProps.

(** ** More on URL resolution *)
Module BuildUrlMore.
Import ApiClient PyStr PyStrFacts Wire Examples.

Lemma startswith_app_l (p q r : string) :
  startswith p q = true -> startswith (p +:+ r) q = true.
Proof.
  rewrite !startswith_spec. intros [t ->]. exists (t +:+ r). apply app_assoc.
Qed.

Lemma lstrip_slashes n s : lstrip slash (slashes n s) = lstrip slash s.
Proof.
  induction n as [|n IH]; [reflexivity|].
  cbn [slashes]. now rewrite lstrip_cons.
Qed.

Lemma slashes_not_http n s :
  startswith s "http" = false -> startswith (slashes n s) "http" = false.
Proof. destruct n as [|n]; [trivial|reflexivity]. Qed.

(** X1: when [base_url] begins with [http], every URL [_build_url]
    returns begins with [http], and building a URL from a built URL
    changes nothing. *)
Theorem build_url_idempotent (c : APIClient) (endpoint : string) :
  startswith (base_url c) "http" = true ->
  startswith (_build_url c endpoint) "http" = true
  /\ _build_url c (_build_url c endpoint) = _build_url c endpoint.
Proof.
  intros Hb.
  assert (H : startswith (_build_url c endpoint) "http" = true).
  { unfold _build_url. destruct (startswith endpoint "http") eqn:E; [exact E|].
    now apply startswith_app_l. }
  split; [exact H|].
  unfold _build_url at 1. now rewrite H.
Qed.

Lemma build_url_idempotent_witness :
  _build_url (client_at "https://api.example.test")
    (_build_url (client_at "https://api.example.test") "/items/1")
  = "https://api.example.test/items/1".
Proof.
  destruct (build_url_idempotent (client_at "https://api.example.test") "/items/1" eq_refl)
    as [_ H].
  rewrite H. reflexivity.
Defined.

(** X2: for an endpoint that does not begin with [http], any number of
    slashes put in front of it yields the same URL, and that URL begins
    with [base_url]. *)
Theorem build_url_leading_slashes (c : APIClient) (endpoint : string) (n : nat) :
  startswith endpoint "http" = false ->
  _build_url c (slashes n endpoint) = _build_url c endpoint
  /\ startswith (_build_url c endpoint) (base_url c) = true.
Proof.
  intros H. unfold _build_url.
  rewrite (slashes_not_http n endpoint H), H, lstrip_slashes.
  split; [reflexivity | apply startswith_app].
Qed.

Lemma build_url_leading_slashes_witness :
  _build_url (client_at "https://api.example.test") "///items/1"
  = _build_url (client_at "https://api.example.test") "items/1".
Proof.
  destruct (build_url_leading_slashes (client_at "https://api.example.test")
              "items/1" 3 eq_refl) as [H _].
  exact H.
Defined.

End BuildUrlMore.

(** ** The constructor *)
Module InitProps.
Import Logging ApiClient Wire HeadersFacts Examples.

Lemma get_update lower k d : forall h,
  Headers.get lower k (Headers.update lower d h)
  = match last_value lower k d with
    | Some v => Some v
    | None => Headers.get lower k h
    end.
Proof.
  induction d as [|[k' v] d IH]; intros h; [reflexivity|].
  cbn [Headers.update fold_left last_value fst snd].
  change (fold_left _ d ?x) with (Headers.update lower d x).
  rewrite IH. destruct (last_value lower k d) as [w|]; [reflexivity|].
  destruct (String.eqb_spec (lower k') (lower k)) as [E|N].
  - unfold Headers.get, Headers.setitem. rewrite E. now rewrite lookup_insert_eq.
  - now apply get_setitem_other.
Qed.

Lemma update_app lower d1 d2 h :
  Headers.update lower (d1 ++ d2) h = Headers.update lower d2 (Headers.update lower d1 h).
Proof. unfold Headers.update. apply fold_left_app. Qed.

Lemma init_headers lower config lib base tmo hdrs log0 :
  headers (session (fst (__init__ lower config lib base tmo hdrs log0)))
  = Headers.update lower
      (lib ++ [("User-Agent", "Playwright-Demo/1.0"); ("Accept", "application/json")]
           ++ default [] hdrs)
      ∅.
Proof.
  rewrite !update_app. unfold __init__, mount, Session_new. cbn [headers session fst].
  destruct hdrs as [[|kv d]|]; reflexivity.
Qed.

(** X3: the constructor takes [base_url] and [timeout] from the
    configuration when they are omitted and also when they are falsy, an
    empty string or a zero timeout; any other value is kept as given. *)
Theorem init_defaults (lower : string -> string)
    (config : Config) (lib : list (string * string))
    (base : option string) (tmo : option Z)
    (hdrs : option (list (string * string))) (log0 : list LogRecord) :
  let c := fst (__init__ lower config lib base tmo hdrs log0) in
  (base = None \/ base = Some EmptyString -> base_url c = API_BASE_URL config)
  /\ (forall b, base = Some b -> b <> EmptyString -> base_url c = b)
  /\ (tmo = None \/ tmo = Some 0%Z -> timeout c = API_TIMEOUT config)
  /\ (forall t, tmo = Some t -> t <> 0%Z -> timeout c = t)
  /\ snd (__init__ lower config lib base tmo hdrs log0)
     = emit INFO ("Initialized API client with base URL: " +:+ base_url c) log0.
Proof.
  intros c. unfold c, __init__. cbn [fst snd base_url timeout].
  repeat split.
  - intros [-> | ->]; reflexivity.
  - intros b -> Hb. destruct b; [congruence|reflexivity].
  - intros [-> | ->]; reflexivity.
  - intros t -> Ht. unfold truthy_Z. destruct (Z.eqb_spec t 0); [congruence|reflexivity].
Qed.

Lemma init_defaults_witness :
  timeout (fst (__init__ Headers.ascii_lower config library_headers (Some EmptyString) (Some 0%Z) None []))
  = 30%Z
  /\ base_url (fst (__init__ Headers.ascii_lower config library_headers (Some EmptyString) (Some 0%Z) None []))
     = "https://api.example.test"
  /\ timeout (fst (__init__ Headers.ascii_lower config library_headers (Some "http://h") (Some 5%Z) None []))
     = 5%Z.
Proof.
  destruct (init_defaults Headers.ascii_lower config library_headers (Some EmptyString) (Some 0%Z) None [])
    as (H1 & _ & H3 & _).
  destruct (init_defaults Headers.ascii_lower config library_headers (Some "http://h") (Some 5%Z) None [])
    as (_ & _ & _ & H4 & _).
  split; [exact (H3 (or_intror eq_refl))|].
  split; [exact (H1 (or_intror eq_refl))|].
  apply (H4 5%Z eq_refl). discriminate.
Defined.

(** X4: in the new client's header set, a header supplied by the caller
    wins over the two fixed defaults ([User-Agent], [Accept]), which win
    over the library's defaults; names are matched ignoring case, and of
    several items of one name the last one counts. *)
Theorem init_header_precedence (lower : string -> string)
    (config : Config) (lib : list (string * string))
    (base : option string) (tmo : option Z)
    (hdrs : option (list (string * string))) (log0 : list LogRecord)
    (k : string) :
  let c := fst (__init__ lower config lib base tmo hdrs log0) in
  Headers.get lower k (headers (session c))
  = match last_value lower k (default [] hdrs) with
    | Some v => Some v
    | None =>
        match last_value lower k [("User-Agent", "Playwright-Demo/1.0");
                            ("Accept", "application/json")] with
        | Some v => Some v
        | None => last_value lower k lib
        end
    end.
Proof.
  intros c. unfold c. rewrite init_headers, !update_app, !get_update.
  destruct (last_value lower k (default [] hdrs)); [reflexivity|].
  destruct (last_value lower k [_; _]); [reflexivity|].
  destruct (last_value lower k lib); reflexivity.
Qed.

(** The caller's [accept] replaces the fixed [Accept]; [User-Agent] is the
    client's own, not the library's. *)
Example init_headers_example :
  let c := fst (__init__ Headers.ascii_lower config library_headers None None
                  (Some [("accept", "text/html")]) []) in
  Headers.get Headers.ascii_lower "Accept" (headers (session c)) = Some "text/html"
  /\ Headers.get Headers.ascii_lower "User-Agent" (headers (session c)) = Some "Playwright-Demo/1.0"
  /\ Headers.get Headers.ascii_lower "Connection" (headers (session c)) = Some "keep-alive".
Proof. repeat split; vm_compute; reflexivity. Qed.

End InitProps.

(** ** Sequences of requests *)
Module ClientMore.
Import Logging ApiClient Caller Wire Examples HeadersFacts.


Section WithTransport.

Variable lower : string -> string.
Variable transport : list Request -> Request -> Response + RequestException.





End WithTransport.

End ClientMore.

(** ** Default headers of the session *)
Module HeaderProps.
Import Logging ApiClient Examples HeadersFacts.

(** X9: two [set_header] calls on headers whose names the header set
    keeps apart (names that differ after its normalisation, that is, by
    more than case) can be made in either order: the resulting client is
    the same, and both values are read back. *)
Theorem set_header_commute (lower : string -> string)
    (k1 v1 k2 v2 : string) (st : State) :
  lower k1 <> lower k2 ->
  let a := snd (set_header lower k2 v2 (snd (set_header lower k1 v1 st))) in
  let b := snd (set_header lower k1 v1 (snd (set_header lower k2 v2 st))) in
  self a = self b
  /\ Headers.get lower k1 (headers (session (self a))) = Some v1
  /\ Headers.get lower k2 (headers (session (self a))) = Some v2.
Proof.
  intros Hne. cbv zeta.
  unfold set_header, session_set_header, set_session, get_self, logger, bind.
  cbn [fst snd self session headers adapters pool base_url timeout log wire].
  repeat split.
  - do 2 f_equal. unfold Headers.setitem. now apply insert_insert_ne.
  - rewrite get_setitem_other by congruence. apply get_setitem_same.
  - apply get_setitem_same.
Qed.

Lemma set_header_commute_witness :
  self (snd (set_header Headers.ascii_lower "X-B" "2"
               (snd (set_header Headers.ascii_lower "X-A" "1"
                       (state_at "https://api.example.test")))))
  = self (snd (set_header Headers.ascii_lower "X-A" "1"
                 (snd (set_header Headers.ascii_lower "X-B" "2"
                         (state_at "https://api.example.test"))))).
Proof.
  assert (Hne : Headers.ascii_lower "X-A" <> Headers.ascii_lower "X-B") by discriminate.
  destruct (set_header_commute Headers.ascii_lower "X-A" "1" "X-B" "2"
              (state_at "https://api.example.test") Hne) as (H & _).
  exact H.
Defined.

(** X10: [set_auth_header(token, scheme)] leaves the client exactly as
    [set_header("Authorization", scheme + " " + token)] does, but its log
    record names the scheme only: the log is the same whatever the token,
    whereas [set_header] writes the value into the log. *)
Theorem set_auth_header_log (lower : string -> string)
    (token token' scheme : string) (st : State) :
  self (snd (set_auth_header lower token (Some scheme) st))
  = self (snd (set_header lower "Authorization" (scheme +:+ " " +:+ token) st))
  /\ log (snd (set_auth_header lower token (Some scheme) st))
     = log (snd (set_auth_header lower token' (Some scheme) st))
  /\ log (snd (set_auth_header lower token (Some scheme) st))
     = emit DEBUG ("Authorization header set with type: " +:+ scheme) (log st)
  /\ log (snd (set_header lower "Authorization" (scheme +:+ " " +:+ token) st))
     = emit DEBUG ("Header set: Authorization = " +:+ scheme +:+ " " +:+ token) (log st).
Proof. repeat split. Qed.

End HeaderProps.

(** ** Forwarding methods of the page objects *)
Module PageOpsProps.
Import Logging BasePage PageOps PageSpec.

Section Methods.

Context {Page : Type}.
Variable engine : Engine Page.

Abbreviation href p i := (locator_nth_get_attribute engine p LINK i "href").

Lemma comprehension_returns p n : forall a vs,
  comprehension engine p (seq a n) = Returns vs
  <-> length vs = n /\ forall i v, vs !! i = Some v -> href p (a + i) = Returns v.
Proof.
  induction n as [|n IH]; intros a vs; cbn [seq comprehension].
  - split.
    + intros [= <-]. split; [reflexivity|]. intros i v Hi. discriminate Hi.
    + intros [Hl _]. destruct vs; [reflexivity|discriminate Hl].
  - destruct (href p a) as [v0|e0] eqn:E0.
    + destruct (comprehension engine p (seq (S a) n)) as [vs0|e1] eqn:E1.
      * apply IH in E1 as [Hl Hv]. split.
        -- intros [= <-]. split; [cbn; now rewrite Hl|].
           intros [|i] v Hi; cbn in Hi.
           ++ injection Hi as <-. now rewrite Nat.add_0_r.
           ++ rewrite Nat.add_succ_r. now apply (Hv i v).
        -- intros [Hl' Hv']. destruct vs as [|v1 vs1]; [discriminate Hl'|].
           assert (H0 : href p (a + 0) = Returns v1) by (apply Hv'; reflexivity).
           rewrite Nat.add_0_r, E0 in H0. injection H0 as <-.
           assert (Hr : comprehension engine p (seq (S a) n) = Returns vs1).
           { apply IH. split; [now injection Hl'|].
             intros i v Hi. specialize (Hv' (S i) v Hi).
             now rewrite Nat.add_succ_r in Hv'. }
           apply IH in Hr as [Hl1 Hv1].
           f_equal. f_equal.
           assert (Heq : Returns vs0 = Returns vs1 :> Outcome (list (option string))).
           { transitivity (comprehension engine p (seq (S a) n)).
             - symmetry. apply IH. now split.
             - apply IH. now split. }
           now injection Heq.
      * split; [discriminate|].
        intros [Hl' Hv']. exfalso. destruct vs as [|v1 vs1]; [discriminate Hl'|].
        assert (Hr : comprehension engine p (seq (S a) n) = Returns vs1).
        { apply IH. split; [now injection Hl'|].
          intros i v Hi. specialize (Hv' (S i) v Hi).
          now rewrite Nat.add_succ_r in Hv'. }
        rewrite E1 in Hr. discriminate Hr.
    + split; [discriminate|].
      intros [Hl' Hv']. exfalso. destruct vs as [|v1 vs1]; [discriminate Hl'|].
      assert (H0 : href p (a + 0) = Returns v1) by (apply Hv'; reflexivity).
      rewrite Nat.add_0_r, E0 in H0. discriminate H0.
Qed.

Lemma comprehension_raises p n : forall a e,
  comprehension engine p (seq a n) = Raises e
  <-> exists i, i < n /\ href p (a + i) = Raises e
                /\ forall j, j < i -> exists v, href p (a + j) = Returns v.
Proof.
  induction n as [|n IH]; intros a e; cbn [seq comprehension].
  - split; [discriminate|]. intros (i & Hi & _). lia.
  - destruct (href p a) as [v0|e0] eqn:E0.
    + destruct (comprehension engine p (seq (S a) n)) as [vs0|e1] eqn:E1.
      * split; [discriminate|]. intros (i & Hi & Hr & Hb). exfalso.
        destruct i as [|i]; [rewrite Nat.add_0_r, E0 in Hr; discriminate Hr|].
        assert (Hx : comprehension engine p (seq (S a) n) = Raises e).
        { apply IH. exists i. split; [lia|]. split.
          - now rewrite Nat.add_succ_r in Hr.
          - intros j Hj. destruct (Hb (S j)) as [v Hv]; [lia|].
            exists v. now rewrite Nat.add_succ_r in Hv. }
        rewrite E1 in Hx. discriminate Hx.
      * apply IH in E1 as (i & Hi & Hr & Hb). cbn [Nat.add] in Hr, Hb. split.
        -- intros [= <-]. exists (S i). split; [lia|]. split.
           ++ now rewrite Nat.add_succ_r.
           ++ intros [|j] Hj; [exists v0; now rewrite Nat.add_0_r|].
              destruct (Hb j) as [v Hv]; [lia|].
              exists v. now rewrite Nat.add_succ_r.
        -- intros (i' & Hi' & Hr' & Hb').
           destruct i' as [|i']; [rewrite Nat.add_0_r, E0 in Hr'; discriminate Hr'|].
           rewrite Nat.add_succ_r in Hr'.
           destruct (Nat.lt_trichotomy i i') as [Hlt|[->|Hgt]].
           ++ destruct (Hb' (S i)) as [v Hv]; [lia|].
              rewrite Nat.add_succ_r, Hr in Hv. discriminate Hv.
           ++ rewrite Hr in Hr'. now injection Hr' as ->.
           ++ destruct (Hb i') as [v Hv]; [lia|].
              rewrite Hr' in Hv. discriminate Hv.
    + split.
      * intros [= <-]. exists 0. split; [lia|]. split; [now rewrite Nat.add_0_r|].
        intros j Hj. lia.
      * intros (i & Hi & Hr & Hb). destruct i as [|i].
        -- rewrite Nat.add_0_r, E0 in Hr. now injection Hr as ->.
        -- destruct (Hb 0) as [v Hv]; [lia|].
           rewrite Nat.add_0_r, E0 in Hv. discriminate Hv.
Qed.

(** X13: [get_all_links] asks for the number of anchors once and then for
    the [href] of each, first to last.  It returns a list exactly when
    every one of these queries answers: the list has one entry per anchor,
    in document order, [None] where an anchor has no [href].  It raises
    exactly when the count fails or some query fails, and the error is
    that of the count or of the first failing anchor.  One DEBUG record is
    written and the page object is unchanged. *)
Theorem get_all_links_spec (self : BasePage Page) (log : list LogRecord) :
  let out := fst (fst (get_all_links engine self log)) in
  snd (fst (get_all_links engine self log)) = self
  /\ snd (get_all_links engine self log) = log ++ record DEBUG "Getting all links"
  /\ (forall e, locator_count engine (page self) LINK = Raises e -> out = Raises e)
  /\ (forall n, locator_count engine (page self) LINK = Returns n ->
        (forall vs, out = Returns vs
                    <-> length vs = n
                        /\ forall i v, vs !! i = Some v -> href (page self) i = Returns v)
        /\ (forall e, out = Raises e
                      <-> exists i, i < n /\ href (page self) i = Raises e
                          /\ forall j, j < i -> exists v, href (page self) j = Returns v)).
Proof.
  cbv zeta. unfold get_all_links, ask. cbn [fst snd].
  split; [reflexivity|]. split; [reflexivity|]. split.
  - intros e ->. reflexivity.
  - intros n ->. split.
    + intros vs. apply (comprehension_returns (page self) n 0 vs).
    + intros e. apply (comprehension_raises (page self) n 0 e).
Qed.

End Methods.

Lemma get_all_links_spec_witness :
  fst (fst (get_all_links LinkExamples.demo_engine
              (HtmlPage LinkExamples.two_links None) []))
  = Returns [Some "/a"; None]
  /\ fst (fst (get_all_links LinkExamples.demo_engine
                 (HtmlPage LinkExamples.broken_links None) []))
     = Raises LinkExamples.detached_error.
Proof.
  destruct (get_all_links_spec LinkExamples.demo_engine
              (HtmlPage LinkExamples.two_links None) []) as (_ & _ & _ & H2).
  destruct (get_all_links_spec LinkExamples.demo_engine
              (HtmlPage LinkExamples.broken_links None) []) as (_ & _ & _ & H3).
  destruct (H2 2 eq_refl) as [Hret _]. destruct (H3 3 eq_refl) as [_ Hraise].
  split.
  - apply Hret. split; [reflexivity|].
    intros [|[|i]] v Hi; cbn in Hi; try discriminate Hi;
      injection Hi as <-; reflexivity.
  - apply Hraise. exists 1. split; [lia|]. split; [reflexivity|].
    intros [|j] Hj; [|lia]. now eexists.
Defined.

(** Two navigations in a row: the second starts from [base_url] again. *)
Example navigate_twice :
  let s0 := HtmlPage LinkExamples.two_links None in
  let '(_, s1, log1) := navigate LinkExamples.demo_engine s0 "/one" [] in
  let '(_, s2, log2) := navigate LinkExamples.demo_engine s1 "?x=2" log1 in
  LinkExamples.shown (page s2) = "https://httpbin.org/html?x=2"
  /\ length log2 = 2.
Proof. split; reflexivity. Qed.

End PageOpsProps.

(** ** The logger singleton, continued *)
Module LoggerMore.
Import Logging Logger LoggerOps.

Lemma get_logger_fresh name st :
  _logger st = None ->
  get_logger name st
  = (Some (name_or_default name), _setup_logger (name_or_default name) st).
Proof. intros H. unfold get_logger. rewrite H. reflexivity. Qed.

(** X14: in a process where the singleton is not yet set, the first
    [get_logger(name)] names the logger [name], or [playwright-demo] when
    the name is omitted or empty; a logging shortcut used first
    ([Logger.info] and the like) sets the singleton up as
    [playwright-demo], and a name passed to [get_logger] afterwards is
    ignored. *)
Theorem get_logger_name (name later : option string) (l : Level) (m : string)
    (st : State) :
  _logger st = None ->
  fst (get_logger name st) = Some (name_or_default name)
  /\ (name = None \/ name = Some EmptyString ->
      fst (get_logger name st) = Some "playwright-demo")
  /\ fst (fst (log_via l m st)) = Some "playwright-demo"
  /\ snd (fst (log_via l m st)) = {| level := l; message := m |}
  /\ fst (get_logger later (snd (log_via l m st))) = Some "playwright-demo".
Proof.
  intros H. unfold log_via. rewrite !get_logger_fresh by exact H. cbn [fst snd].
  split; [reflexivity|]. split; [intros [-> | ->]; reflexivity|].
  split; [reflexivity|]. split; [reflexivity|].
  unfold get_logger. reflexivity.
Qed.

Lemma get_logger_name_witness :
  fst (get_logger (Some "custom")
         (snd (info "started" PageExamples.fresh_process)))
  = Some "playwright-demo"
  /\ fst (get_logger (Some "custom") PageExamples.fresh_process) = Some "custom".
Proof.
  destruct (get_logger_name (Some "custom") (Some "custom") INFO "started"
              PageExamples.fresh_process eq_refl) as (H1 & _ & _ & _ & H5).
  split; [exact H5 | exact H1].
Defined.



(** X16: [_setup_logger(name)] called again for the same name changes
    nothing in the registry: no second handler is attached and the level
    stays DEBUG; only a handler object is created and dropped. *)
Theorem setup_logger_twice (name : string) (st : State) :
  let st1 := _setup_logger name st in
  let st2 := _setup_logger name st1 in
  loggerDict st2 = loggerDict st1
  /\ _logger st2 = _logger st1
  /\ next_id st2 = S (next_id st1).
Proof.
  cbv zeta. split; [|split; reflexivity].
  unfold _setup_logger at 1. cbn [loggerDict].
  set (st1 := _setup_logger name st).
  assert (Hl : loggerDict st1 !! name
               = Some (getLogger name (loggerDict st1))).
  { unfold st1, _setup_logger. cbn [loggerDict]. unfold getLogger.
    now rewrite !lookup_insert_eq. }
  assert (Hlev : logger_level (getLogger name (loggerDict st1)) = Some DEBUG).
  { unfold st1, _setup_logger. cbn [loggerDict]. unfold getLogger at 1.
    rewrite lookup_insert_eq. cbn [default]. destruct (handlers _); reflexivity. }
  assert (Hh : handlers (getLogger name (loggerDict st1)) <> []).
  { unfold st1, _setup_logger. cbn [loggerDict]. unfold getLogger at 1.
    rewrite lookup_insert_eq. cbn [default handlers].
    destruct (handlers (getLogger name (loggerDict st))); cbn; discriminate. }
  apply insert_id. rewrite Hl. f_equal.
  destruct (getLogger name (loggerDict st1)) as [lv hs].
  cbn [logger_level handlers] in *. subst lv.
  destruct hs; [congruence|reflexivity].
Qed.

End LoggerMore.

(** ** File names and the order of time *)
Module TimestampOrder.
Import PyStr PyStrFacts Helpers HelpersProps TimestampSpec PageExamples LinkExamples.

Lemma compare_refl (s : string) : String.compare s s = Eq.
Proof.
  induction s as [|c s IH]; [reflexivity|].
  cbn [String.compare]. unfold Ascii.compare. now rewrite N.compare_refl.
Qed.

Lemma compare_app (x y r r' : string) :
  String.length x = String.length y ->
  String.compare (x +:+ r) (y +:+ r') = lex (String.compare x y) (String.compare r r').
Proof.
  revert y. induction x as [|c x IH]; intros [|d y] Hl; try discriminate Hl.
  - reflexivity.
  - rewrite !app_cons. cbn [String.compare].
    destruct (Ascii.compare c d); [|reflexivity|reflexivity].
    apply IH. now injection Hl.
Qed.

Lemma is_digit_value c :
  is_digit c = true -> (N_of_ascii c = digit_value c + 48 /\ digit_value c < 10)%N.
Proof.
  unfold is_digit, digit_value. intros H.
  apply andb_prop in H as [H1 H2].
  apply Nat.leb_le in H1. apply Nat.leb_le in H2.
  unfold nat_of_ascii in H1, H2. lia.
Qed.

Lemma read_digits_bound s :
  all_digits s = true -> (read_digits s < 10 ^ N.of_nat (String.length s))%N.
Proof.
  induction s as [|c s IH]; intros H; [cbn; lia|].
  cbn [all_digits] in H. apply andb_prop in H as [Hc Hs].
  destruct (is_digit_value c Hc) as [_ Hd]. specialize (IH Hs).
  cbn [read_digits String.length]. rewrite Nat2N.inj_succ, N.pow_succ_r'.
  nia.
Qed.

Lemma compare_digits x : forall y,
  all_digits x = true -> all_digits y = true ->
  String.length x = String.length y ->
  String.compare x y = (read_digits x ?= read_digits y)%N.
Proof.
  induction x as [|c x IH]; intros [|d y] Hx Hy Hl; try discriminate Hl.
  - reflexivity.
  - cbn [all_digits] in Hx, Hy.
    apply andb_prop in Hx as [Hc Hx]. apply andb_prop in Hy as [Hd Hy].
    injection Hl as Hl.
    destruct (is_digit_value c Hc) as [Ec Bc].
    destruct (is_digit_value d Hd) as [Ed Bd].
    pose proof (read_digits_bound x Hx) as Bx.
    pose proof (read_digits_bound y Hy) as By.
    cbn [String.compare read_digits]. unfold Ascii.compare.
    rewrite Ec, Ed, <- Hl.
    set (P := (10 ^ N.of_nat (String.length x))%N) in *.
    rewrite <- Hl in By. fold P in By.
    destruct (N.compare_spec (digit_value c + 48) (digit_value d + 48)) as [E|L|G].
    + assert (digit_value c = digit_value d) as -> by lia.
      rewrite (IH y Hx Hy Hl).
      destruct (N.compare_spec (read_digits x) (read_digits y)) as [E'|L'|G'];
        symmetry.
      * apply N.compare_eq_iff. lia.
      * apply N.compare_lt_iff. lia.
      * apply N.compare_gt_iff. lia.
    + symmetry. apply N.compare_lt_iff. nia.
    + symmetry. apply N.compare_gt_iff. nia.
Qed.

Lemma reads_back_below (w : nat) (bound : N) :
  forallb (fun k => reads_back w (N.of_nat k)) (seq 0 (N.to_nat bound)) = true ->
  forall n : N, (n < bound)%N -> read_digits (zfill w (pretty n)) = n.
Proof.
  intros Hall n Hn. rewrite forallb_forall in Hall.
  specialize (Hall (N.to_nat n)). rewrite N2Nat.id in Hall.
  apply N.eqb_eq. apply Hall. apply in_seq. lia.
Qed.

Lemma year_reads (n : N) : (n < 10000)%N -> read_digits (zfill 4 (pretty n)) = n.
Proof. apply reads_back_below. vm_compute. reflexivity. Qed.

Lemma field_reads (n : N) : (n < 100)%N -> read_digits (zfill 2 (pretty n)) = n.
Proof. apply reads_back_below. vm_compute. reflexivity. Qed.

Lemma year_compare (m n : N) : (m < 10000)%N -> (n < 10000)%N ->
  String.length (zfill 4 (pretty m)) = String.length (zfill 4 (pretty n))
  /\ String.compare (zfill 4 (pretty m)) (zfill 4 (pretty n)) = (m ?= n)%N.
Proof.
  intros Hm Hn.
  destruct (year_padded m Hm) as [Lm Dm]. destruct (year_padded n Hn) as [Ln Dn].
  split; [congruence|].
  rewrite compare_digits by congruence.
  now rewrite (year_reads m Hm), (year_reads n Hn).
Qed.

Lemma field_compare (m n : N) : (m < 100)%N -> (n < 100)%N ->
  String.length (zfill 2 (pretty m)) = String.length (zfill 2 (pretty n))
  /\ String.compare (zfill 2 (pretty m)) (zfill 2 (pretty n)) = (m ?= n)%N.
Proof.
  intros Hm Hn.
  destruct (field_padded m Hm) as [Lm Dm]. destruct (field_padded n Hn) as [Ln Dn].
  split; [congruence|].
  rewrite compare_digits by congruence.
  now rewrite (field_reads m Hm), (field_reads n Hn).
Qed.

Lemma lex_eq_r c : lex c Eq = c.
Proof. destruct c; reflexivity. Qed.

Lemma timestamp_compare a b :
  well_formed a -> well_formed b ->
  String.length (get_timestamp a) = String.length (get_timestamp b)
  /\ String.compare (get_timestamp a) (get_timestamp b) = chrono_compare a b.
Proof.
  intros (Hy & Hm & Hd & HH & HM & HS & _) (Hy' & Hm' & Hd' & HH' & HM' & HS' & _).
  rewrite !get_timestamp_fields.
  destruct (year_compare (year a) (year b)) as [L1 C1]; [lia|lia|].
  destruct (field_compare (month a) (month b)) as [L2 C2]; [lia|lia|].
  destruct (field_compare (day a) (day b)) as [L3 C3]; [lia|lia|].
  destruct (field_compare (hour a) (hour b)) as [L4 C4]; [lia|lia|].
  destruct (field_compare (minute a) (minute b)) as [L5 C5]; [lia|lia|].
  destruct (field_compare (second a) (second b)) as [L6 C6]; [lia|lia|].
  split.
  - rewrite !app_length. congruence.
  - unfold chrono_compare.
    rewrite (compare_app _ _ _ _ L1), C1.
    rewrite (compare_app _ _ _ _ L2), C2.
    rewrite (compare_app _ _ _ _ L3), C3.
    rewrite (compare_app "_" "_" _ _ eq_refl).
    change (String.compare "_" "_") with Eq. cbn [lex].
    rewrite (compare_app _ _ _ _ L4), C4.
    rewrite (compare_app _ _ _ _ L5), C5.
    now rewrite C6.
Qed.

Lemma filename_compare a b prefix extension :
  well_formed a -> well_formed b ->
  String.compare (generate_unique_filename a prefix extension)
                 (generate_unique_filename b prefix extension)
  = chrono_compare a b.
Proof.
  intros Ha Hb. destruct (timestamp_compare a b Ha Hb) as [L C].
  unfold generate_unique_filename. destruct (truthy prefix).
  - rewrite (compare_app prefix prefix _ _ eq_refl), compare_refl. cbn [lex].
    rewrite (compare_app "_" "_" _ _ eq_refl).
    change (String.compare "_" "_") with Eq. cbn [lex].
    now rewrite (compare_app _ _ _ _ L), C, compare_refl, lex_eq_r.
  - now rewrite (compare_app _ _ _ _ L), C, compare_refl, lex_eq_r.
Qed.

Lemma chrono_compare_eq a b : chrono_compare a b = Eq <-> same_second a b.
Proof.
  unfold chrono_compare, same_second, lex. split.
  - intros H.
    destruct (N.compare_spec (year a) (year b)); try discriminate H.
    destruct (N.compare_spec (month a) (month b)); try discriminate H.
    destruct (N.compare_spec (day a) (day b)); try discriminate H.
    destruct (N.compare_spec (hour a) (hour b)); try discriminate H.
    destruct (N.compare_spec (minute a) (minute b)); try discriminate H.
    apply N.compare_eq in H. repeat split; assumption.
  - intros (-> & -> & -> & -> & -> & ->). now rewrite !N.compare_refl.
Qed.

(** X17: for the same prefix and extension, two calls of
    [generate_unique_filename] return the same name exactly when their
    clock readings fall into the same second: names made in different
    seconds never collide. *)
Theorem filename_collides_iff (a b : datetime) (prefix extension : string) :
  well_formed a -> well_formed b ->
  generate_unique_filename a prefix extension
  = generate_unique_filename b prefix extension
  <-> same_second a b.
Proof.
  intros Ha Hb. rewrite <- chrono_compare_eq.
  rewrite <- (filename_compare a b prefix extension Ha Hb). split.
  - intros ->. apply compare_refl.
  - apply String.compare_eq_iff.
Qed.

Lemma well_formed_clock : well_formed clock /\ well_formed clock_later.
Proof. unfold well_formed, clock, clock_later; simpl; lia. Qed.

Lemma filename_collides_iff_witness :
  generate_unique_filename clock "shot" ".png"
  = generate_unique_filename clock_later "shot" ".png".
Proof.
  destruct well_formed_clock as [Ha Hb].
  apply (filename_collides_iff clock clock_later "shot" ".png" Ha Hb).
  repeat split.
Defined.

(** X18: names made with the same prefix and extension sort, as strings,
    in the order of the seconds they were made in: comparing two names
    gives the comparison of the two clock readings, year first, then
    month, day, hour, minute and second. *)
Theorem filename_order (a b : datetime) (prefix extension : string) :
  well_formed a -> well_formed b ->
  String.compare (generate_unique_filename a prefix extension)
                 (generate_unique_filename b prefix extension)
  = chrono_compare a b
  /\ String.length (generate_unique_filename a prefix extension)
     = String.length (generate_unique_filename b prefix extension).
Proof.
  intros Ha Hb. split; [now apply filename_compare|].
  destruct (timestamp_compare a b Ha Hb) as [L _].
  unfold generate_unique_filename. destruct (truthy prefix);
    rewrite !app_length; now rewrite L.
Qed.

Lemma filename_order_witness :
  String.compare (generate_unique_filename clock "shot" ".png")
                 (generate_unique_filename clock_next_year "shot" ".png")
  = Lt.
Proof.
  destruct well_formed_clock as [Ha _].
  assert (Hb : well_formed clock_next_year)
    by (unfold well_formed, clock_next_year; simpl; lia).
  destruct (filename_order clock clock_next_year "shot" ".png" Ha Hb) as [H _].
  rewrite H. reflexivity.
Defined.

End TimestampOrder.

(** ** The timestamp in a file name *)
Module TimestampFields.
Import PyStr PyStrFacts Helpers HelpersProps TimestampSpec TimestampOrder PageExamples.

Lemma timestamp_substrings (y m d H M S : string) :
  String.length y = 4 -> String.length m = 2 -> String.length d = 2 ->
  String.length H = 2 -> String.length M = 2 -> String.length S = 2 ->
  let t := y +:+ m +:+ d +:+ "_" +:+ H +:+ M +:+ S in
  substring 0 4 t = y /\ substring 4 2 t = m /\ substring 6 2 t = d
  /\ substring 9 2 t = H /\ substring 11 2 t = M /\ substring 13 2 t = S.
Proof.
  destruct y as [|y1 [|y2 [|y3 [|y4 [|? ?]]]]]; try discriminate.
  destruct m as [|m1 [|m2 [|? ?]]]; try discriminate.
  destruct d as [|d1 [|d2 [|? ?]]]; try discriminate.
  destruct H as [|H1 [|H2 [|? ?]]]; try discriminate.
  destruct M as [|M1 [|M2 [|? ?]]]; try discriminate.
  destruct S as [|S1 [|S2 [|? ?]]]; try discriminate.
  intros _ _ _ _ _ _. cbv zeta.
  repeat (rewrite ?app_cons, ?app_nil).
  repeat split.
Qed.

(** The six fields of the clock reading can be read back off the
    timestamp, each at its place. *)
Lemma get_timestamp_reads now :
  well_formed now ->
  let t := get_timestamp now in
  read_digits (substring 0 4 t) = year now
  /\ read_digits (substring 4 2 t) = month now
  /\ read_digits (substring 6 2 t) = day now
  /\ read_digits (substring 9 2 t) = hour now
  /\ read_digits (substring 11 2 t) = minute now
  /\ read_digits (substring 13 2 t) = second now.
Proof.
  intros (Hy & Hm & Hd & HH & HM & HS & _). cbv zeta.
  rewrite get_timestamp_fields.
  destruct (year_padded (year now)) as [Ly _]; [lia|].
  destruct (field_padded (month now)) as [Lm _]; [lia|].
  destruct (field_padded (day now)) as [Ld _]; [lia|].
  destruct (field_padded (hour now)) as [LH _]; [lia|].
  destruct (field_padded (minute now)) as [LM _]; [lia|].
  destruct (field_padded (second now)) as [LS _]; [lia|].
  destruct (timestamp_substrings _ _ _ _ _ _ Ly Lm Ld LH LM LS)
    as (-> & -> & -> & -> & -> & ->).
  rewrite year_reads by lia. rewrite !field_reads by lia.
  repeat split.
Qed.

(** C6: for a non-empty prefix, [generate_unique_filename(prefix,
    extension)] is [prefix + "_" + t + extension] where [t] is the clock
    reading formatted [YYYYMMDD_HHMMSS]: fifteen characters, digits around
    one underscore, whose digits are the year, month, day, hour, minute
    and second of the reading; with prefix [shot] and extension [.png] the
    name is [shot_] + [t] + [.png]; and two calls whose clock readings
    fall into the same second return the same name. *)
Theorem generate_unique_filename_prefixed
    (now later : datetime) (prefix extension : string) :
  well_formed now ->
  prefix <> EmptyString ->
  same_second now later ->
  let t := get_timestamp now in
  generate_unique_filename now prefix extension
  = prefix +:+ "_" +:+ t +:+ extension
  /\ is_timestamp t = true
  /\ (read_digits (substring 0 4 t) = year now
      /\ read_digits (substring 4 2 t) = month now
      /\ read_digits (substring 6 2 t) = day now
      /\ read_digits (substring 9 2 t) = hour now
      /\ read_digits (substring 11 2 t) = minute now
      /\ read_digits (substring 13 2 t) = second now)
  /\ generate_unique_filename now "shot" ".png" = "shot_" +:+ t +:+ ".png"
  /\ generate_unique_filename later prefix extension
     = generate_unique_filename now prefix extension.
Proof.
  intros Hwf Hne Hsame. cbv zeta.
  assert (Ht : truthy prefix = true) by (destruct prefix; [congruence|reflexivity]).
  split; [unfold generate_unique_filename; now rewrite Ht|].
  split; [now apply get_timestamp_shape|].
  split; [exact (get_timestamp_reads now Hwf)|].
  split; [reflexivity|].
  unfold generate_unique_filename. rewrite Ht.
  now rewrite (get_timestamp_same_second now later Hsame).
Qed.

Lemma generate_unique_filename_prefixed_witness :
  generate_unique_filename clock "shot" ".png" = "shot_20261104_090500.png"
  /\ read_digits (substring 4 2 (get_timestamp clock)) = 11%N
  /\ generate_unique_filename clock_later "shot" ".png"
     = generate_unique_filename clock "shot" ".png".
Proof.
  assert (Hwf : well_formed clock) by (unfold well_formed, clock; simpl; lia).
  assert (Hne : "shot" <> EmptyString) by discriminate.
  assert (Hsame : same_second clock clock_later) by (repeat split).
  destruct (generate_unique_filename_prefixed clock clock_later "shot" ".png"
              Hwf Hne Hsame) as (H1 & _ & (_ & Hm & _) & _ & H4).
  split; [rewrite H1; reflexivity|]. split; [exact Hm | exact H4].
Defined.

End TimestampFields.
